(** * AMS wearable telemetry pipeline (raspberrypi/): a shallow embedding

    The Python sources under [raspberrypi/] are embedded as Rocq functions:

    - [feature_extractor.py]  -> [Module FeatureExtractor]
    - [inference.py]          -> [Module Inference]
    - the 12-byte raw-sample wire format ([struct] "<6h")
                              -> [Module Wire]
    - [mongo_upload.py]       -> [Module MongoUpload]
    - [ble_receiver.py] (the notification callbacks)
                              -> [Module BleReceiver]
    - [pi_central.py]         -> [Module PiCentral]
    - [ble_receiver.py] (connecting and disconnecting a node)
                              -> [Module BleLink]

    Python [float] is IEEE-754 binary64, embedded as Rocq's primitive
    [float]; Python [int] is [Z]; [dict]s are stdpp [gmap]s; [bytes] are
    [list byte].  numpy's reductions, the [re]/[json]/[datetime] library
    calls, the wall clock, the remote store and the disk are parameters of
    the sections that use them. *)

From Stdlib Require Import ZArith QArith Qround Qabs List Floats Lia Lqa Bool.
From Stdlib Require Import Strings.Byte Strings.Ascii.
From stdpp Require Import base gmap strings list pretty.

Set Warnings "-inexact-float".

(* ------------------------------------------------------------------ *)
(** ** Python numerics on binary64 *)

Module PyFloat.

Local Open Scope float_scope.

(** [max(a, b)] on floats: Python keeps the first argument unless the
    second compares strictly greater (so a NaN first argument wins). *)
Definition py_max (a b : float) : float := if a <? b then b else a.

(** [int(x)]: truncation toward zero; [ValueError]/[OverflowError] on
    NaN and infinities ([None]). *)
Definition py_int (x : float) : option Z :=
  match Prim2SF x with
  | S754_zero _ => Some 0%Z
  | S754_finite s m e =>
      let mag := match e with
                 | Zneg p => Z.shiftr (Zpos m) (Zpos p)
                 | _ => Z.shiftl (Zpos m) e
                 end in
      Some (if s then (- mag)%Z else mag)
  | _ => None
  end.

(** The exact rational value of a finite float. *)
Definition float_val (x : float) : option Q :=
  match Prim2SF x with
  | S754_zero _ => Some 0%Q
  | S754_finite s m e =>
      let q := match e with
               | Zneg p => Qmake (Zpos m) (2 ^ p)%positive
               | _ => inject_Z (Z.shiftl (Zpos m) e)
               end in
      Some (if s then Qopp q else q)
  | _ => None
  end.

(** [float(n)] for a Python int: round to nearest, ties to even;
    [OverflowError] ([None]) when the magnitude exceeds the doubles. *)
Definition py_float_of_int (n : Z) : option float :=
  match binary_normalize prec emax n 0 false with
  | S754_infinity _ | S754_nan => None
  | sf => Some (SF2Prim sf)
  end.

(** Integers of at most 53 bits convert exactly; this is the conversion
    the consumer applies to the decoded 16-bit fields. *)
Definition float_of_small_int (n : Z) : float :=
  if (n <? 0)%Z then - of_uint63 (Uint63.of_Z (- n)) else of_uint63 (Uint63.of_Z n).

(** Order facts read off the specification of the comparisons. *)
Lemma SFcompare_antisym (x y : spec_float) :
  SFcompare y x = option_map CompOpp (SFcompare x y).
Proof.
  destruct x as [sx|sx| |sx mx ex], y as [sy|sy| |sy my ey]; simpl;
    try reflexivity;
    try (destruct sx; reflexivity); try (destruct sy; reflexivity);
    try (destruct sx, sy; reflexivity).
  destruct sx, sy; simpl; try reflexivity;
    rewrite (Z.compare_antisym ex ey);
    destruct (ex ?= ey)%Z; simpl; try reflexivity;
    change Eq with (CompOpp Eq) at 1;
    rewrite <- (Pos.compare_cont_antisym mx my Eq);
    destruct (Pos.compare_cont Eq mx my); reflexivity.
Qed.

Lemma ltb_asym (x y : float) : (x <? y) = true -> (y <? x) = false.
Proof.
  rewrite !ltb_spec. unfold SFltb. rewrite (SFcompare_antisym (Prim2SF x)).
  destruct (SFcompare (Prim2SF x) (Prim2SF y)) as [[| |]|]; simpl; congruence.
Qed.

Lemma ltb_irrefl (x : float) : (x <? x) = false.
Proof.
  destruct (x <? x) eqn:E; [|reflexivity].
  pose proof (ltb_asym _ _ E). congruence.
Qed.

Lemma leb_not_ltb (x y : float) : (x <=? y) = true -> (y <? x) = false.
Proof.
  rewrite leb_spec, ltb_spec. unfold SFleb, SFltb.
  rewrite (SFcompare_antisym (Prim2SF x)).
  destruct (SFcompare (Prim2SF x) (Prim2SF y)) as [[| |]|]; simpl; congruence.
Qed.

(** [int(x)] against the exact value of [x]: the integer part, reached by
    dropping the fraction (toward zero). *)
Definition integer_part (q : Q) (k : Z) : Prop :=
  ((0 <= q -> inject_Z k <= q /\ q < inject_Z k + 1) /\
   (q <= 0 -> inject_Z k - 1 < q /\ q <= inject_Z k))%Q.

Ltac q_to_z :=
  unfold Qle, Qlt, Qplus, Qminus, Qopp, inject_Z;
  cbn -[Z.mul Z.add Z.pow Z.div Z.opp Pos.pow];
  rewrite ?Pos.mul_1_r, ?Pos.mul_1_l.

Lemma py_int_integer_part (x : float) (k : Z) (q : Q) :
  py_int x = Some k -> float_val x = Some q -> integer_part q k.
Proof.
  unfold py_int, float_val, integer_part.
  destruct (Prim2SF x) as [z|i| |sg m e]; try discriminate.
  - intros [= <-] [= <-]. split; intros _; split; reflexivity || (now vm_compute).
  - intros [= <-] [= <-].
    destruct e as [|pe|pe].
    + rewrite Z.shiftl_0_r.
      destruct sg; q_to_z; split; intros ?; split; lia.
    + destruct sg; q_to_z; split; intros ?; split; lia.
    + pose proof (Z.shiftr_div_pow2 (Zpos m) (Zpos pe) ltac:(lia)) as Hs.
      assert (Hd : Zpos (2 ^ pe) = (2 ^ Zpos pe)%Z) by apply Pos2Z.inj_pow.
      pose proof (Z.div_mod (Zpos m) (2 ^ Zpos pe) ltac:(lia)) as Hdm.
      pose proof (Z.mod_pos_bound (Zpos m) (2 ^ Zpos pe) ltac:(lia)) as Hmb.
      rewrite Hs. set (d := (Zpos m / 2 ^ Zpos pe)%Z) in *.
      assert (HP : (0 < 2 ^ Z.pos pe)%Z) by lia.
      clearbody d. revert Hd Hdm Hmb HP. generalize (2 ^ Z.pos pe)%Z as P.
      generalize (Z.pos m `mod` 2 ^ Z.pos pe)%Z.
      intros r P Hd Hdm Hmb HP.
      destruct sg; q_to_z; rewrite ?Hd; split; intros ?; split; nia.
Qed.

(** [round(x)] on the exact value: to nearest, ties to even. *)
Definition round_half_even (q : Q) : Z :=
  let f := Qfloor q in
  match Qcompare (q - inject_Z f) (1 # 2) with
  | Lt => f
  | Gt => (f + 1)%Z
  | Eq => if Z.even f then f else (f + 1)%Z
  end.

Definition py_round (x : float) : option Z :=
  q ← float_val x; Some (round_half_even q).

(** [py_max] returns one of its arguments, and neither exceeds it. *)
Lemma py_max_greater (a b : float) :
  (py_max a b = a \/ py_max a b = b) /\
  (py_max a b <? a) = false /\ (py_max a b <? b) = false.
Proof.
  unfold py_max. destruct (a <? b) eqn:E.
  - split; [now right|]. split; [now apply ltb_asym | apply ltb_irrefl].
  - split; [now left|]. split; [apply ltb_irrefl | exact E].
Qed.

(** *** Exact operations: dividing by one, adding a zero *)

Section Exact.

Local Open Scope Z_scope.

Lemma div_eucl_exact (a b : Z) : 0 < b -> Z.div_eucl (a * b) b = (a, 0).
Proof.
  intros Hb.
  rewrite (surjective_pairing (Z.div_eucl (a * b) b)).
  change (fst (Z.div_eucl (a * b) b)) with (a * b / b).
  change (snd (Z.div_eucl (a * b) b)) with ((a * b) mod b).
  rewrite Z.div_mul, Z.mod_mul by lia. reflexivity.
Qed.

Lemma canonical_fexp (m : positive) (e : Z) :
  bounded prec emax m e = true ->
  fexp prec emax (Zpos (digits2_pos m) + e) = e /\ e <= 971.
Proof.
  unfold bounded, canonical_mantissa. intros H.
  apply andb_true_iff in H as [H1 H2].
  apply Z.eqb_eq in H1. apply Z.leb_le in H2.
  split; [exact H1|]. unfold emax, prec in H2. lia.
Qed.

Lemma shr_fexp_canonical (m : positive) (e : Z) :
  fexp prec emax (Zpos (digits2_pos m) + e) = e ->
  shr_fexp prec emax (Zpos m) e loc_Exact
  = ({| shr_m := Zpos m; shr_r := false; shr_s := false |}, e).
Proof.
  intros H. unfold shr_fexp. cbn [Zdigits2 shr_record_of_loc].
  rewrite H, Z.sub_diag. reflexivity.
Qed.

(** Rounding a mantissa that is already canonical changes nothing. *)
Lemma binary_round_aux_canonical (s : bool) (m : positive) (e : Z) :
  bounded prec emax m e = true ->
  binary_round_aux prec emax s (Zpos m) e loc_Exact = S754_finite s m e.
Proof.
  intros H. destruct (canonical_fexp m e H) as [Hc He].
  unfold binary_round_aux. rewrite shr_fexp_canonical by exact Hc.
  cbn [shr_m loc_of_shr_record round_nearest_even].
  rewrite shr_fexp_canonical by exact Hc. cbn [shr_m].
  replace (e <=? emax - prec) with true; [reflexivity|].
  symmetry. apply Z.leb_le. unfold emax, prec. lia.
Qed.

(** Nor does rounding its double at the exponent below. *)
Lemma binary_round_aux_doubled (s : bool) (m : positive) (e : Z) :
  bounded prec emax m e = true ->
  fexp prec emax (Zpos (digits2_pos m~0) + (e - 1)) = e ->
  binary_round_aux prec emax s (Zpos m~0) (e - 1) loc_Exact = S754_finite s m e.
Proof.
  intros H Hd. destruct (canonical_fexp m e H) as [Hc He].
  unfold binary_round_aux.
  assert (Hs : shr_fexp prec emax (Zpos m~0) (e - 1) loc_Exact
               = ({| shr_m := Zpos m; shr_r := false; shr_s := false |}, e)).
  { unfold shr_fexp. cbn [Zdigits2 shr_record_of_loc]. rewrite Hd.
    replace (e - (e - 1)) with 1 by lia. cbn [shr iter_pos shr_1 orb].
    f_equal. lia. }
  rewrite Hs. cbn [shr_m loc_of_shr_record round_nearest_even].
  rewrite shr_fexp_canonical by exact Hc. cbn [shr_m].
  replace (e <=? emax - prec) with true; [reflexivity|].
  symmetry. apply Z.leb_le. unfold emax, prec. lia.
Qed.

(** The float [1.0]. *)
Definition SF_one : spec_float := S754_finite false 4503599627370496 (-52).

Lemma SFdiv_one (x : spec_float) :
  SpecFloat.valid_binary prec emax x = true -> SFdiv prec emax x SF_one = x.
Proof.
  destruct x as [s|s| |s m e]; cbn [SpecFloat.valid_binary]; intros H.
  - cbn. now rewrite xorb_false_r.
  - cbn. now rewrite xorb_false_r.
  - reflexivity.
  - destruct (canonical_fexp m e H) as [Hc He].
    unfold SF_one, SFdiv, SFdiv_core_binary. cbn [Zdigits2].
    change (digits2_pos 4503599627370496) with 53%positive.
    rewrite xorb_false_r.
    set (d := Zpos (digits2_pos m)) in *.
    assert (Hd : 1 <= d) by (unfold d; lia).
    unfold fexp, emin, prec, emax in Hc.
    destruct (Z.eq_dec d 53) as [Hd53|Hdn];
      [destruct (Z.eq_dec e (-1074)) as [He0|Hen]|].
    + (* normal, least exponent *)
      replace (Z.min (fexp prec emax (d + e - (53 + -52))) (e - -52)) with e
        by (unfold fexp, emin, prec, emax; lia).
      replace (e - -52 - e) with 52 by lia.
      rewrite Z.shiftl_mul_pow2 by lia.
      rewrite div_eucl_exact by reflexivity.
      change (new_location 4503599627370496 0) with loc_Exact.
      now apply binary_round_aux_canonical.
    + (* normal: the quotient carries one more bit *)
      replace (Z.min (fexp prec emax (d + e - (53 + -52))) (e - -52)) with (e - 1)
        by (unfold fexp, emin, prec, emax; lia).
      replace (e - -52 - (e - 1)) with 53 by lia.
      rewrite Z.shiftl_mul_pow2 by lia.
      replace (Z.pos m * 2 ^ 53) with (Z.pos m~0 * 4503599627370496) by lia.
      rewrite div_eucl_exact by reflexivity.
      change (new_location 4503599627370496 0) with loc_Exact.
      apply binary_round_aux_doubled; [exact H|].
      cbn [digits2_pos]. fold d in Hc |- *.
      unfold fexp, emin, prec, emax. lia.
    + (* subnormal *)
      replace (Z.min (fexp prec emax (d + e - (53 + -52))) (e - -52)) with e
        by (unfold fexp, emin, prec, emax; lia).
      replace (e - -52 - e) with 52 by lia.
      rewrite Z.shiftl_mul_pow2 by lia.
      rewrite div_eucl_exact by reflexivity.
      change (new_location 4503599627370496 0) with loc_Exact.
      now apply binary_round_aux_canonical.
Qed.

End Exact.

(** [x / 1.0] is [x], for every float (NaN, infinities, both zeros and
    subnormals included). *)
Lemma div_one (x : float) : x / 1 = x.
Proof.
  apply Prim2SF_inj. rewrite div_spec.
  change (Prim2SF 1) with SF_one.
  apply SFdiv_one, Prim2SF_valid.
Qed.

(** [-0.0] *)
Definition neg_zero : float := Eval cbv in (- 0)%float.

(** [-0.0 + x] is [x], for every float. *)
Lemma neg_zero_add (x : float) : neg_zero + x = x.
Proof.
  apply Prim2SF_inj. rewrite add_spec.
  change (Prim2SF neg_zero) with (S754_zero true).
  destruct (Prim2SF x) as [[|]|[|]| |s m e]; reflexivity.
Qed.

(** [0.0 + x] is [x], except that [0.0 + -0.0] is [0.0]. *)
Lemma zero_add (x : float) : 0 + x = x \/ (x = neg_zero /\ 0 + x = 0).
Proof.
  destruct (Prim2SF x) as [[|]|[|]| |s m e] eqn:Hx;
    try (left; apply Prim2SF_inj; rewrite add_spec, Hx; reflexivity).
  right. assert (x = neg_zero) as ->
    by (apply Prim2SF_inj; rewrite Hx; reflexivity).
  split; reflexivity.
Qed.

End PyFloat.

(* ------------------------------------------------------------------ *)
(** ** feature_extractor.py *)

Module FeatureExtractor.

Import PyFloat.
Local Open Scope float_scope.

(** A 3-axis reading as the extractor accepts it: a dict with keys
    ["x"], ["y"], ["z"] (absent keys read as 0) or a sequence [[x,y,z]]. *)
Inductive vec3 :=
| VDict (d : gmap string float)
| VSeq (x y z : float).

(** [sample]: a dict with the keys ["accel"] and ["gyro"]. *)
Record sample := Sample { accel : vec3; gyro : vec3 }.

(** [float(v.get(k, 0))] *)
Definition dict_get (d : gmap string float) (k : string) : float :=
  default 0 (d !! k).

Definition _get_vec3 (v : vec3) : float * float * float :=
  match v with
  | VDict d => (dict_get d "x", dict_get d "y", dict_get d "z")
  | VSeq x y z => (x, y, z)
  end.

(** The window handed to [compute_features]: limb name -> samples. *)
Abbreviation window := (gmap string (list sample)).

Section Extractor.

(** numpy's reductions over a 1-D float array: [np.mean(v)],
    [np.std(v, ddof=1)], [np.min(v)], [np.max(v)]. *)
Variable np_mean : list float -> float.
Variable np_std_ddof1 : list float -> float.
Variable np_min : list float -> float.
Variable np_max : list float -> float.

(** [sstats], the closure inside [_feats]. *)
Definition sstats (v : list float) : list float :=
  if (length v =? 0)%nat then [0; 0; 0; 0]
  else [ np_mean v;
         (if (1 <? length v)%nat then np_std_ddof1 v else 0);
         np_min v;
         np_max v ].

(** [np.sqrt(x**2 + y**2 + z**2)], elementwise. *)
Definition magnitude (xyz : float * float * float) : float :=
  let '(x, y, z) := xyz in sqrt (x * x + y * y + z * z).

Definition _feats (samples : list sample) : list float :=
  let acc := map (fun s => _get_vec3 (accel s)) samples in
  let gyr := map (fun s => _get_vec3 (gyro s)) samples in
  let ax := map (fun a => a.1.1) acc in
  let ay := map (fun a => a.1.2) acc in
  let az := map (fun a => a.2) acc in
  let amag := map magnitude acc in
  let gmag := map magnitude gyr in
  sstats ax ++ sstats ay ++ sstats az ++ sstats amag ++ sstats gmag.

(** One iteration of the loop over [("wrist", "ankle")]. *)
Definition limb_slot (w : window) (limb : string) : list float :=
  match w !! limb with
  | Some samples =>
      if (0 <? length samples)%nat then _feats samples else replicate 20 0
  | None => replicate 20 0
  end.

Definition limbs : list string := ["wrist"; "ankle"].

Definition compute_features (w : window) : list float :=
  fold_left (fun vec limb => vec ++ limb_slot w limb) limbs [].

(** A limb contributes nothing to the window: its key is absent or
    maps to an empty sample list. *)
Definition limb_absent (w : window) (limb : string) : Prop :=
  w !! limb = None \/ w !! limb = Some [].

(** The 20 positions of a limb in the feature vector. *)
Definition slot_of (k : nat) (vec : list float) : list float :=
  take 20 (drop (20 * k) vec).

Lemma sstats_length v : length (sstats v) = 4%nat.
Proof. unfold sstats. destruct (length v =? 0)%nat; reflexivity. Qed.

Lemma _feats_length samples : length (_feats samples) = 20%nat.
Proof.
  unfold _feats. cbv zeta.
  repeat rewrite length_app. repeat rewrite sstats_length. reflexivity.
Qed.

Lemma limb_slot_length w limb : length (limb_slot w limb) = 20%nat.
Proof.
  unfold limb_slot. destruct (w !! limb) as [samples|].
  - destruct (0 <? length samples)%nat.
    + apply _feats_length.
    + apply length_replicate.
  - apply length_replicate.
Qed.

Lemma limb_slot_absent w limb :
  limb_absent w limb -> limb_slot w limb = replicate 20 0.
Proof.
  unfold limb_slot. intros [-> | ->]; reflexivity.
Qed.

Lemma compute_features_unfold w :
  compute_features w = limb_slot w "wrist" ++ limb_slot w "ankle".
Proof. reflexivity. Qed.

(** C1. [compute_features] returns exactly 40 floats for every window
    (in particular for every window in which some device has a
    sample), and the slot of a device that is absent from the window,
    or present with an empty sample list, is 20 times [0.0]: positions
    0-19 for the wrist, 20-39 for the ankle. *)
Theorem compute_features_shape (w : window) :
  length (compute_features w) = 40%nat /\
  (limb_absent w "wrist" -> slot_of 0 (compute_features w) = replicate 20 0) /\
  (limb_absent w "ankle" -> slot_of 1 (compute_features w) = replicate 20 0) /\
  (forall limb k i, limbs !! k = Some limb -> limb_absent w limb ->
     (i < 20)%nat -> compute_features w !! (20 * k + i)%nat = Some 0).
Proof.
  rewrite compute_features_unfold.
  pose proof (limb_slot_length w "wrist") as Hw.
  pose proof (limb_slot_length w "ankle") as Ha.
  assert (Hwz : limb_absent w "wrist" ->
                slot_of 0 (limb_slot w "wrist" ++ limb_slot w "ankle") = replicate 20 0).
  { intros Habs. unfold slot_of. change (drop (20 * 0) ?l) with l.
    rewrite take_app_length' by (symmetry; exact Hw).
    now apply limb_slot_absent. }
  assert (Haz : limb_absent w "ankle" ->
                slot_of 1 (limb_slot w "wrist" ++ limb_slot w "ankle") = replicate 20 0).
  { intros Habs. unfold slot_of.
    rewrite drop_app_length' by (rewrite Hw; reflexivity).
    rewrite take_ge by lia. now apply limb_slot_absent. }
  split; [rewrite length_app; lia|].
  split; [exact Hwz|]. split; [exact Haz|].
  intros limb k i Hk Habs Hi.
  destruct k as [|[|k]]; simpl in Hk; try discriminate;
    injection Hk as <-.
  - rewrite lookup_app_l by lia.
    rewrite (limb_slot_absent _ _ Habs).
    apply lookup_replicate_2. simpl. lia.
  - rewrite lookup_app_r by lia. rewrite Hw.
    replace (20 * 1 + i - 20)%nat with i by lia.
    rewrite (limb_slot_absent _ _ Habs).
    apply lookup_replicate_2. lia.
Qed.

(** The empty series: [_feats] of no sample is the slot of an absent
    limb. *)
Lemma _feats_nil : _feats [] = replicate 20 0.
Proof. reflexivity. Qed.

Lemma limb_slot_feats (w : window) (limb : string) :
  limb_slot w limb = _feats (default [] (w !! limb)).
Proof.
  unfold limb_slot. destruct (w !! limb) as [[|s l]|]; reflexivity.
Qed.

Lemma compute_features_length (w : window) : length (compute_features w) = 40%nat.
Proof.
  rewrite compute_features_unfold, length_app, !limb_slot_length. reflexivity.
Qed.

(** X2. [compute_features] reads the window only at ["wrist"] and
    ["ankle"]: its result is [_feats] of the wrist samples followed by
    [_feats] of the ankle samples (no samples when the key is absent),
    and adding, replacing or removing any other key changes nothing. *)
Theorem compute_features_reads_two_limbs (w : window) :
  compute_features w
    = _feats (default [] (w !! "wrist")) ++ _feats (default [] (w !! "ankle")) /\
  (forall k l, k <> "wrist" -> k <> "ankle" ->
     compute_features (<[k := l]> w) = compute_features w /\
     compute_features (delete k w) = compute_features w).
Proof.
  split.
  - now rewrite compute_features_unfold, !limb_slot_feats.
  - intros k l Hw Ha. rewrite !compute_features_unfold, !limb_slot_feats.
    rewrite !lookup_insert_ne, !lookup_delete_ne by congruence. auto.
Qed.

End Extractor.

(** Reference kernels: numpy's reductions on arrays shorter than its
    pairwise-summation block, where the sum runs left to right. *)
Definition np_sum_ref (v : list float) : float := fold_left add v 0.

Definition np_mean_ref (v : list float) : float :=
  np_sum_ref v / float_of_small_int (Z.of_nat (length v)).

Definition np_std_ddof1_ref (v : list float) : float :=
  let m := np_mean_ref v in
  let sq := map (fun x => (x - m) * (x - m)) v in
  sqrt (np_sum_ref sq / float_of_small_int (Z.of_nat (length v) - 1)).

(** [np.minimum]/[np.maximum] propagate NaN. *)
Definition np_minimum (a b : float) : float :=
  if is_nan a then a else if is_nan b then b else if b <? a then b else a.
Definition np_maximum (a b : float) : float :=
  if is_nan a then a else if is_nan b then b else if a <? b then b else a.

Definition np_min_ref (v : list float) : float :=
  match v with [] => nan | x :: r => fold_left np_minimum r x end.
Definition np_max_ref (v : list float) : float :=
  match v with [] => nan | x :: r => fold_left np_maximum r x end.

Definition compute_features_ref : window -> list float :=
  compute_features np_mean_ref np_std_ddof1_ref np_min_ref np_max_ref.

(** [np.add.reduce] on fewer than eight elements is a left-to-right sum
    from the start value of the reduction.  numpy starts a float sum
    that is not empty from [-0.0], which keeps the sign of a sum of
    negative zeros; its older versions start from [0.0], as [np_sum_ref]
    does. *)
Definition np_sum_from (start : float) (v : list float) : float :=
  fold_left add v start.

(** [np.mean(v)]: the sum divided by the number of elements. *)
Definition np_mean_from (start : float) (v : list float) : float :=
  np_sum_from start v / float_of_small_int (Z.of_nat (length v)).

Lemma np_mean_from_single (start x : float) :
  np_mean_from start [x] = start + x.
Proof.
  unfold np_mean_from, np_sum_from. cbn [fold_left length].
  change (float_of_small_int (Z.of_nat 1)) with 1. apply div_one.
Qed.

(** C10. On a single-element series [[x]], for every float [x], [sstats]
    returns [[x, 0.0, x, x]]: the standard deviation is the constant
    [0.0] whatever [np.std] would do (it is not called, so neither NaN
    nor an error can arise), and mean, min and max are that element.
    With the sum of older numpy, which starts from [0.0], this holds up
    to the sign of zero: the mean of [[-0.0]] is [0.0], and
    [0.0 == -0.0]. *)
Theorem sstats_single_element (np_std : list float -> float) (x : float) :
  sstats (np_mean_from neg_zero) np_std np_min_ref np_max_ref [x] = [x; 0; x; x] /\
  is_nan 0 = false /\
  exists m,
    sstats np_mean_ref np_std np_min_ref np_max_ref [x] = [m; 0; x; x] /\
    (m = x \/ (x = neg_zero /\ m = 0 /\ (m =? x) = true)).
Proof.
  split; [|split; [reflexivity|]].
  - unfold sstats. cbn [length Nat.eqb Nat.ltb Nat.leb].
    rewrite np_mean_from_single, neg_zero_add. reflexivity.
  - exists (0 + x). split.
    + unfold sstats. cbn [length Nat.eqb Nat.ltb Nat.leb].
      change np_mean_ref with (np_mean_from 0).
      rewrite np_mean_from_single. reflexivity.
    + destruct (zero_add x) as [->|[-> ->]]; [now left|].
      right. split; [reflexivity|]. split; reflexivity.
Qed.

End FeatureExtractor.

(* ------------------------------------------------------------------ *)
(** ** inference.py *)

Module Inference.

Import PyFloat FeatureExtractor.
Local Open Scope float_scope.

(** What the engine needs of a predictor: [predict(X)] and
    [predict_proba(X)] over a 2-D array; [None] stands for a raised
    exception.  A model loaded from the joblib artifact is any such
    record. *)
Record model := Model {
  predict : list (list float) -> option (list Z);
  predict_proba : list (list float) -> option (list (list float))
}.

(** The body of the loop in [_FallbackModel.predict], for one row.
    [row[13]] raises [IndexError] on a row of 13 or fewer entries. *)
Definition fallback_predict_row (row : list float) : option Z :=
  wrist_am_std ← row !! 13%nat;
  let ankle_am_std :=
    if (33 <? length row)%nat then default wrist_am_std (row !! 33%nat)
    else wrist_am_std in
  let m := py_max wrist_am_std ankle_am_std in
  Some (if m <? 0.15 then 0%Z else if m <? 0.50 then 1%Z else 2%Z).

Definition fallback_predict (X : list (list float)) : option (list Z) :=
  mapM fallback_predict_row X.

(** [arr = [0.2, 0.2, 0.2]; arr[int(p)] = 0.6] *)
Definition fallback_predict_proba (X : list (list float))
  : option (list (list float)) :=
  preds ← fallback_predict X;
  Some (map (fun p : Z => <[Z.to_nat p := 0.6]> [0.2; 0.2; 0.2]) preds).

Definition _FallbackModel : model :=
  Model fallback_predict fallback_predict_proba.

Record InferenceEngine := Engine {
  label_map : gmap Z string;
  the_model : model
}.

Definition default_label_map : gmap Z string :=
  {[ 0%Z := "Idle"; 1%Z := "Walking"; 2%Z := "Running" ]}.

(** [__init__]: [loaded] is what [_load_model] found at [model_path]
    ([None]: no file, or loading raised); [label_map or {...}] replaces
    a missing or empty map by the default one. *)
Definition InferenceEngine_init (loaded : option model)
    (lm : option (gmap Z string)) : InferenceEngine :=
  Engine (match lm with
          | Some m => if decide (m = ∅) then default_label_map else m
          | None => default_label_map
          end)
         (default _FallbackModel loaded).

(** [predict_window] after the feature vector is computed:
    [X = vec.reshape(1, -1)], then label and probabilities. *)
Definition classify_features (e : InferenceEngine) (vec : list float)
  : option (string * option (list float)) :=
  let X := [vec] in
  ys ← predict (the_model e) X;
  y ← head ys;
  let label := default (pretty y) (label_map e !! y) in
  let proba := predict_proba (the_model e) X ≫= head in
  Some (label, proba).

Section PredictWindow.

Variable np_mean np_std_ddof1 np_min np_max : list float -> float.

Definition predict_window (e : InferenceEngine) (w : window)
  : option (string * option (list float)) :=
  classify_features e (compute_features np_mean np_std_ddof1 np_min np_max w).

End PredictWindow.

(** The engine the pipeline runs when no trained artifact loads. *)
Definition fallback_engine : InferenceEngine := InferenceEngine_init None None.

Lemma fallback_row_eval (row : list float) (w a : float) :
  row !! 13%nat = Some w -> row !! 33%nat = Some a ->
  fallback_predict_row row =
  Some (if py_max w a <? 0.15 then 0%Z
        else if py_max w a <? 0.50 then 1%Z else 2%Z).
Proof.
  intros Hw Ha. unfold fallback_predict_row. rewrite Hw. simpl.
  apply lookup_lt_Some in Ha as Hlen.
  destruct (33 <? length row)%nat eqn:E.
  - rewrite Ha. reflexivity.
  - apply Nat.ltb_ge in E. lia.
Qed.

Lemma fallback_classify_eval (row : list float) (k : Z) :
  fallback_predict_row row = Some k ->
  classify_features fallback_engine row =
  Some (default (pretty k) (default_label_map !! k),
        Some (<[Z.to_nat k := 0.6]> [0.2; 0.2; 0.2])).
Proof.
  intros Hk. unfold classify_features, fallback_engine. simpl.
  unfold fallback_predict_proba, fallback_predict. simpl.
  rewrite Hk. reflexivity.
Qed.

(** C2. On a feature row (entries 13 and 33 present) the fallback
    classifier takes [m], the greater of [row[13]] and [row[33]], and
    answers class 0 / "Idle" when [m < 0.15], class 1 / "Walking" when
    [0.15 <= m] and [m < 0.50], and class 2 / "Running" in every other
    case; 0.10/0.05 gives Idle, 0.30/0.20 Walking and 0.60/0.10
    Running. *)
Theorem fallback_predict_thresholds (row : list float) (w a : float)
    (Hw : row !! 13%nat = Some w) (Ha : row !! 33%nat = Some a) :
  let m := py_max w a in
  let answer (k : Z) (name : string) :=
    fallback_predict [row] = Some [k] /\
    exists proba, classify_features fallback_engine row = Some (name, proba) in
  ((m = w \/ m = a) /\ (m <? w) = false /\ (m <? a) = false) /\
  ((m <? 0.15) = true -> answer 0%Z "Idle") /\
  ((0.15 <=? m) = true -> (m <? 0.50) = true -> answer 1%Z "Walking") /\
  ((m <? 0.15) = false -> (m <? 0.50) = false -> answer 2%Z "Running") /\
  (w = 0.10 -> a = 0.05 -> answer 0%Z "Idle") /\
  (w = 0.30 -> a = 0.20 -> answer 1%Z "Walking") /\
  (w = 0.60 -> a = 0.10 -> answer 2%Z "Running").
Proof.
  intros m answer.
  pose proof (fallback_row_eval row w a Hw Ha) as Hrow. fold m in Hrow.
  assert (Hans : forall k name,
    (if m <? 0.15 then 0%Z else if m <? 0.50 then 1%Z else 2%Z) = k ->
    default (pretty k) (default_label_map !! k) = name -> answer k name).
  { intros k name Hk Hname. rewrite Hk in Hrow. split.
    - unfold fallback_predict. simpl. rewrite Hrow. reflexivity.
    - eexists. rewrite (fallback_classify_eval row k Hrow), Hname. reflexivity. }
  split; [apply py_max_greater|].
  split; [intros E; apply Hans; [rewrite E|]; reflexivity|].
  split; [intros E1 E2; apply leb_not_ltb in E1;
          apply Hans; [rewrite E1, E2|]; reflexivity|].
  split; [intros E1 E2; apply Hans; [rewrite E1, E2|]; reflexivity|].
  split; [|split]; intros Ew Ea; subst w a; apply Hans; reflexivity.
Qed.

(** A 40-entry feature row with the given accel-magnitude deviations. *)
Definition row_with (w a : float) : list float :=
  replicate 13 0 ++ [w] ++ replicate 19 0 ++ [a] ++ replicate 6 0.

(** C2 at the row of a walking wearer. *)
Lemma fallback_predict_thresholds_witness :
  fallback_predict [row_with 0.30 0.20] = Some [1%Z] /\
  exists proba,
    classify_features fallback_engine (row_with 0.30 0.20) = Some ("Walking", proba).
Proof.
  apply (fallback_predict_thresholds (row_with 0.30 0.20) 0.30 0.20);
    reflexivity.
Defined.

(** *** More on the fallback model *)

(** The class the thresholds give to the deviation [m]. *)
Definition threshold_class (m : float) : Z :=
  if m <? 0.15 then 0%Z else if m <? 0.50 then 1%Z else 2%Z.

(** [arr = [0.2, 0.2, 0.2]; arr[k] = 0.6] for the three classes. *)
Definition peaked (k : Z) : list float := <[Z.to_nat k := 0.6]> [0.2; 0.2; 0.2].

Lemma threshold_class_range (m : float) :
  threshold_class m = 0%Z \/ threshold_class m = 1%Z \/ threshold_class m = 2%Z.
Proof.
  unfold threshold_class. destruct (m <? 0.15); [auto|].
  destruct (m <? 0.50); auto.
Qed.

Lemma py_max_same (x : float) : py_max x x = x.
Proof. unfold py_max. now rewrite ltb_irrefl. Qed.

(** One row of the fallback model, by its length. *)
Lemma fallback_row_cases (row : list float) :
  match row !! 13%nat with
  | None => fallback_predict_row row = None
  | Some w =>
      fallback_predict_row row =
      Some (threshold_class (py_max w (default w (row !! 33%nat))))
  end.
Proof.
  unfold fallback_predict_row.
  destruct (row !! 13%nat) as [w|] eqn:Hw; [|reflexivity].
  cbn [mbind option_bind].
  destruct (33 <? length row)%nat eqn:El; [reflexivity|].
  apply Nat.ltb_ge in El.
  rewrite (lookup_ge_None_2 row 33) by lia. reflexivity.
Qed.

(** X4. A row of 13 or fewer entries makes [_FallbackModel.predict]
    raise ([row[13]] is out of range); on a row of 14 to 33 entries the
    ankle value falls back to the wrist value, so the class is the
    threshold class of [row[13]] alone. *)
Theorem fallback_predict_short_rows (row : list float) :
  ((length row <= 13)%nat -> fallback_predict_row row = None) /\
  (forall w, row !! 13%nat = Some w -> (length row <= 33)%nat ->
     fallback_predict_row row = Some (threshold_class w)).
Proof.
  pose proof (fallback_row_cases row) as Hc. split.
  - intros Hlen. rewrite lookup_ge_None_2 in Hc by lia. exact Hc.
  - intros w Hw Hlen. rewrite Hw in Hc.
    rewrite lookup_ge_None_2 in Hc by lia. cbn in Hc.
    now rewrite py_max_same in Hc.
Qed.

Lemma fallback_predict_short_rows_witness :
  fallback_predict_row (replicate 13 0 ++ [0.3]) = Some 1%Z.
Proof.
  apply (proj2 (fallback_predict_short_rows (replicate 13 0 ++ [0.3])) 0.3);
    [reflexivity | simpl; lia].
Defined.

(** X3. [predict_proba] of the fallback model agrees with [predict]:
    whenever [predict] returns classes, every class is 0, 1 or 2 and
    [predict_proba] returns, row by row, 0.6 at the predicted class and
    0.2 at the two others; whenever [predict] raises, so does
    [predict_proba]. *)
Theorem fallback_proba_matches_predict (X : list (list float)) :
  match fallback_predict X with
  | Some ys =>
      length ys = length X /\
      Forall (fun y => y = 0%Z \/ y = 1%Z \/ y = 2%Z) ys /\
      fallback_predict_proba X = Some (map peaked ys) /\
      Forall (fun y => peaked y !! Z.to_nat y = Some 0.6 /\ length (peaked y) = 3%nat) ys
  | None => fallback_predict_proba X = None
  end.
Proof.
  unfold fallback_predict_proba.
  destruct (fallback_predict X) as [ys|] eqn:Hys; [|reflexivity].
  unfold fallback_predict in Hys. apply mapM_Some in Hys.
  assert (Hcls : Forall (fun y => y = 0%Z \/ y = 1%Z \/ y = 2%Z) ys).
  { induction Hys as [|row y X ys Hrow _ IH]; constructor; [|exact IH].
    pose proof (fallback_row_cases row) as Hc.
    destruct (row !! 13%nat); [|congruence].
    rewrite Hrow in Hc. injection Hc as ->. apply threshold_class_range. }
  split; [symmetry; eapply Forall2_length; eauto|].
  split; [exact Hcls|]. split; [reflexivity|].
  eapply Forall_impl; [exact Hcls|].
  intros y [->|[->| ->]]; split; reflexivity.
Qed.

Section FallbackWindow.

Variable np_mean np_std_ddof1 np_min np_max : list float -> float.

(** The fallback engine on any window. *)
Lemma fallback_window_cases (w : window) :
  exists k,
    (k = 0%Z \/ k = 1%Z \/ k = 2%Z) /\
    predict_window np_mean np_std_ddof1 np_min np_max fallback_engine w
      = Some (default "" (default_label_map !! k), Some (peaked k)).
Proof.
  unfold predict_window.
  set (row := compute_features np_mean np_std_ddof1 np_min np_max w).
  assert (Hlen : length row = 40%nat) by apply compute_features_length.
  destruct (lookup_lt_is_Some_2 row 13 ltac:(lia)) as [a Ha].
  pose proof (fallback_row_cases row) as Hc. rewrite Ha in Hc.
  set (k := threshold_class (py_max a (default a (row !! 33%nat)))) in Hc.
  exists k. pose proof (threshold_class_range (py_max a (default a (row !! 33%nat)))) as Hk.
  fold k in Hk. split; [exact Hk|].
  rewrite (fallback_classify_eval row k Hc).
  destruct Hk as [->|[->| ->]]; reflexivity.
Qed.

(** X5. With the fallback model the engine never raises on a window:
    for every window and whatever numpy's reductions return,
    [predict_window] yields one of "Idle", "Walking", "Running" together
    with the distribution peaked on that label. *)
Theorem fallback_predict_window_total (w : window) :
  exists k,
    (k = 0%Z \/ k = 1%Z \/ k = 2%Z) /\
    predict_window np_mean np_std_ddof1 np_min np_max fallback_engine w
      = Some (default "" (default_label_map !! k), Some (peaked k)) /\
    default "" (default_label_map !! k) ∈ ["Idle"; "Walking"; "Running"].
Proof.
  destruct (fallback_window_cases w) as (k & Hk & Hrun).
  exists k. split; [exact Hk|]. split; [exact Hrun|].
  destruct Hk as [->|[->| ->]]; cbn; set_solver.
Qed.

End FallbackWindow.

End Inference.

(* ------------------------------------------------------------------ *)
(** ** The 12-byte raw-sample wire format *)

Module Wire.

Import PyFloat.

Definition int16_range (n : Z) : Prop := (-32768 <= n <= 32767)%Z.

(** [struct.unpack("<h", bytes([lo, hi]))]: little-endian, two's
    complement. *)
Definition unpack_h (lo hi : byte) : Z :=
  let u := (Z.of_N (Byte.to_N lo) + 256 * Z.of_N (Byte.to_N hi))%Z in
  if (u <? 32768)%Z then u else (u - 65536)%Z.

Fixpoint unpack_hs (payload : list byte) : option (list Z) :=
  match payload with
  | [] => Some []
  | lo :: hi :: rest => ns ← unpack_hs rest; Some (unpack_h lo hi :: ns)
  | [_] => None
  end.

(** [struct.unpack("<6h", payload)]: [struct.error] ([None]) unless the
    buffer holds exactly 12 bytes. *)
Definition unpack_6h (payload : list byte) : option (list Z) :=
  if (length payload =? 12)%nat then unpack_hs payload else None.

(** [ax/1000.0]: the consumer's scaling of one decoded field. *)
Definition decode_axis (n : Z) : float :=
  (float_of_small_int n / 1000)%float.


Definition byte_of_Z (z : Z) : byte :=
  default Byte.x00 (Byte.of_N (Z.to_N (z mod 256))).

(** Modelled from the spec: the encoder runs on the wearable's firmware,
    which is not among the sources.  The spec fixes the layout: "exactly
    12 bytes = six signed little-endian 16-bit integers (accel x,y,z then
    gyro x,y,z)".  [pack_h] is one such field. *)
Definition pack_h (n : Z) : list byte := [byte_of_Z n; byte_of_Z (n / 256)].



(** Modelled from the spec: the firmware's conversion when it truncates
    toward zero, as a C cast to [int16_t] does. *)
Definition to_fixed (v : Q) : Z :=
  let s := (v * 1000)%Q in Z.quot (Qnum s) (Zpos (Qden s)).












(** Truncation is one admissible rounding. *)
Lemma Zquot_close (s : Q) :
  (Qabs (inject_Z (Z.quot (Qnum s) (Zpos (Qden s))) - s) <= 1)%Q.
Proof.
  destruct s as [a b]. cbn [Qnum Qden].
  pose proof (Z.quot_rem' a (Zpos b)) as Hqr.
  pose proof (Z.rem_bound_abs a (Zpos b) ltac:(lia)) as Hr.
  apply Qabs_Qle_condition.
  unfold Qle, Qminus, Qplus, Qopp, inject_Z. cbn [Qnum Qden].
  split; nia.
Qed.

Lemma to_fixed_code (v : Q) :
  (Qabs (inject_Z (to_fixed v) - v * 1000) <= 1)%Q.
Proof. unfold to_fixed. cbv zeta. apply Zquot_close. Qed.








(** *** Decoding any payload *)

Lemma byte_to_N_bound (b : byte) : (0 <= Z.of_N (Byte.to_N b) <= 255)%Z.
Proof. pose proof (Byte.to_N_bounded b). lia. Qed.

Lemma unpack_h_range (lo hi : byte) : int16_range (unpack_h lo hi).
Proof.
  unfold int16_range, unpack_h.
  pose proof (byte_to_N_bound lo). pose proof (byte_to_N_bound hi).
  destruct (_ <? 32768)%Z eqn:Eu;
    [apply Z.ltb_lt in Eu | apply Z.ltb_ge in Eu]; lia.
Qed.

Lemma byte_of_Z_of_byte (b : byte) (z : Z) :
  (z mod 256 = Z.of_N (Byte.to_N b))%Z -> byte_of_Z z = b.
Proof.
  intros Hz. unfold byte_of_Z. rewrite Hz, N2Z.id, Byte.of_to_N. reflexivity.
Qed.

(** Re-encoding a decoded field gives back its two bytes. *)
Lemma pack_unpack_h (lo hi : byte) : pack_h (unpack_h lo hi) = [lo; hi].
Proof.
  unfold pack_h.
  pose proof (byte_to_N_bound lo). pose proof (byte_to_N_bound hi).
  rewrite (byte_of_Z_of_byte lo), (byte_of_Z_of_byte hi); [reflexivity| |];
    unfold unpack_h;
    (destruct (_ <? 32768)%Z eqn:Eu;
     [apply Z.ltb_lt in Eu | apply Z.ltb_ge in Eu]);
    Z.div_mod_to_equations; lia.
Qed.

(** [unpack_hs] on [2 n] bytes. *)
Lemma unpack_hs_even (n : nat) (payload : list byte) :
  length payload = (2 * n)%nat ->
  exists ns, unpack_hs payload = Some ns /\ length ns = n /\
    Forall int16_range ns /\ concat (map pack_h ns) = payload.
Proof.
  revert payload. induction n as [|n IH]; intros payload Hlen.
  - destruct payload; [|discriminate]. exists []. repeat split. constructor.
  - destruct payload as [|lo [|hi rest]]; try (simpl in Hlen; lia).
    destruct (IH rest ltac:(simpl in Hlen; lia)) as (ns & Hns & Hl & Hr & Hp).
    exists (unpack_h lo hi :: ns). cbn [unpack_hs]. rewrite Hns. cbn.
    split; [reflexivity|]. split; [now rewrite Hl|].
    split; [constructor; [apply unpack_h_range | exact Hr]|].
    change (pack_h (unpack_h lo hi) ++ concat (map pack_h ns) = lo :: hi :: rest).
    now rewrite pack_unpack_h, Hp.
Qed.

(** X7. [struct.unpack("<6h", payload)] succeeds exactly on the payloads
    of 12 bytes, and then yields six integers, each within the signed
    16-bit range; on every other length it raises. *)
Theorem unpack_6h_total_on_12 (payload : list byte) :
  (length payload = 12%nat ->
     exists ns, unpack_6h payload = Some ns /\ length ns = 6%nat /\
       Forall int16_range ns) /\
  (length payload <> 12%nat -> unpack_6h payload = None).
Proof.
  unfold unpack_6h. split.
  - intros Hlen. rewrite Hlen. cbn [Nat.eqb].
    destruct (unpack_hs_even 6 payload Hlen) as (ns & Hns & Hl & Hr & _).
    exists ns. auto.
  - intros Hlen. apply Nat.eqb_neq in Hlen. now rewrite Hlen.
Qed.

(** X8. Decoding loses nothing: two payloads that [unpack_6h] maps to
    the same six fields are the same 12 bytes. *)
Theorem unpack_6h_injective (p1 p2 : list byte) (ns : list Z) :
  unpack_6h p1 = Some ns -> unpack_6h p2 = Some ns -> p1 = p2.
Proof.
  unfold unpack_6h. intros H1 H2.
  destruct (length p1 =? 12)%nat eqn:E1; [|discriminate].
  destruct (length p2 =? 12)%nat eqn:E2; [|discriminate].
  apply Nat.eqb_eq in E1, E2.
  destruct (unpack_hs_even 6 p1 E1) as (n1 & Hn1 & _ & _ & Hp1).
  destruct (unpack_hs_even 6 p2 E2) as (n2 & Hn2 & _ & _ & Hp2).
  rewrite H1 in Hn1. rewrite H2 in Hn2.
  injection Hn1 as <-. injection Hn2 as <-. now rewrite <- Hp1, <- Hp2.
Qed.

(** Two 12-byte payloads, as the ankle node would send them. *)
Definition payload_a : list byte :=
  [Byte.x0a; Byte.x00; Byte.xf6; Byte.xff; Byte.xe8; Byte.x03;
   Byte.x00; Byte.x00; Byte.x01; Byte.x00; Byte.xff; Byte.x7f].

Lemma unpack_6h_total_on_12_witness :
  exists ns, unpack_6h payload_a = Some ns /\ length ns = 6%nat /\
    Forall int16_range ns.
Proof.
  apply (proj1 (unpack_6h_total_on_12 payload_a)). reflexivity.
Defined.

Lemma unpack_6h_injective_witness :
  unpack_6h payload_a = Some [10; -10; 1000; 0; 1; 32767]%Z /\
  payload_a = payload_a.
Proof.
  split; [reflexivity|].
  apply (unpack_6h_injective payload_a payload_a
           [10; -10; 1000; 0; 1; 32767]%Z); reflexivity.
Defined.

End Wire.

(* ------------------------------------------------------------------ *)
(** ** Exceptions and mutable state *)

Module Effects.

(** The exceptions the modelled code can meet. *)
Inductive exn :=
| PyMongoError      (* raised by [insert_many] *)
| TypeError         (* [insert_many] of an empty list *)
| OSError           (* [open] *)
| FileNotFoundError
| JSONDecodeError
| ValueError
| KeyError
| StructError
| ModelError.       (* raised inside the predictor *)

Inductive result (A : Type) :=
| Ok (a : A)
| Raise (e : exn).
Arguments Ok {A} a.
Arguments Raise {A} e.

(** A computation over a state [S]: it returns or raises, and in both
    cases leaves a state behind (Python does not roll back). *)
Definition M (S A : Type) : Type := S -> result A * S.

#[global] Instance M_ret {S} : MRet (M S) := fun A a s => (Ok a, s).

#[global] Instance M_bind {S} : MBind (M S) := fun A B f m s =>
  match m s with
  | (Ok a, s') => f a s'
  | (Raise e, s') => (Raise e, s')
  end.

Definition get {S} : M S S := fun s => (Ok s, s).
Definition modify {S} (f : S -> S) : M S unit := fun s => (Ok tt, f s).
Definition raise {S A} (e : exn) : M S A := fun s => (Raise e, s).

(** [try: m  except Exception: h] *)
Definition try_except {S A} (m : M S A) (h : exn -> M S A) : M S A := fun s =>
  match m s with
  | (Ok a, s') => (Ok a, s')
  | (Raise e, s') => h e s'
  end.

Definition of_option {S A} (e : exn) (o : option A) : M S A :=
  match o with Some a => mret a | None => raise e end.

(** [for x in l: body(x)] *)
Fixpoint for_each {S A} (l : list A) (body : A -> M S unit) : M S unit :=
  match l with
  | [] => mret tt
  | x :: r => body x;; for_each r body
  end.

Lemma for_each_app {S A} (l1 l2 : list A) (body : A -> M S unit) (s : S) :
  for_each (l1 ++ l2) body s = (for_each l1 body;; for_each l2 body) s.
Proof.
  revert s. induction l1 as [|x l1 IH]; intros s; [reflexivity|].
  cbn [for_each app]. unfold mbind, M_bind in *.
  destruct (body x s) as [[[]|e] s']; [apply IH | reflexivity].
Qed.

(** Run a computation on a component of a larger state. *)
Definition zoom {S T A} (proj : S -> T) (inj : T -> S -> S) (m : M T A) : M S A :=
  fun s => let '(r, t') := m (proj s) in (r, inj t' s).

End Effects.

(* ------------------------------------------------------------------ *)
(** ** mongo_upload.py *)

Module MongoUpload.

Import PyFloat Effects.

(** What [insert_many(docs, ordered=False)] did: returned, or raised
    after writing the documents flagged in [landed] (an unordered bulk
    write goes on past a failing document). *)
Inductive insert_outcome :=
| Inserted
| InsertFailed (landed : list bool).

(** The surroundings of the process: the wall clock, the store's answer
    to each [insert_many], and whether each [open(fname, "a")] succeeds;
    each is indexed by the number of earlier uses. *)
Record env := Env {
  clock : nat -> float;
  remote : nat -> insert_outcome;
  disk_open : nat -> bool
}.

(** A backlog file is named by its directory and the whole-second
    timestamp in [backlog_<int(time.time())>.ndjson]. *)
Abbreviation path := (string * Z)%type.

Section Sink.

Context {doc : Type}.

(** [json.dumps(d, default=str)] and [json.loads(line)] ([None]: it
    raises). *)
Variable dumps : doc -> string.
Variable loads : string -> option doc.
Variable E : env.

Record world := World {
  collections : gmap string (list doc);  (* remote store, by collection *)
  files : gmap path (list string);       (* backlog files, as lines *)
  clock_reads : nat;
  remote_calls : nat;
  disk_opens : nat
}.

Record MongoSink := Sink { col : string; backlog_dir : string }.

(** The documents of a collection (none if it was never written). *)
Definition coll (w : world) (c : string) : list doc :=
  default [] (collections w !! c).

Definition keep_landed (landed : list bool) (docs : list doc) : list doc :=
  (filter (fun bd => bd.1 = true) (zip landed docs)).*2.

(** [time.time()] *)
Definition time_time : M world float := fun w =>
  (Ok (clock E (clock_reads w)),
   World (collections w) (files w) (S (clock_reads w)) (remote_calls w) (disk_opens w)).

(** [self.col.insert_many(docs, ordered=False)] *)
Definition insert_many (s : MongoSink) (docs : list doc) : M world unit := fun w =>
  match docs with
  | [] => (Raise TypeError, w)
  | _ =>
      let written := match remote E (remote_calls w) with
                     | Inserted => docs
                     | InsertFailed landed => keep_landed landed docs
                     end in
      let w' := World (<[col s := coll w (col s) ++ written]> (collections w))
                      (files w) (clock_reads w) (S (remote_calls w)) (disk_opens w) in
      match remote E (remote_calls w) with
      | Inserted => (Ok tt, w')
      | InsertFailed _ => (Raise PyMongoError, w')
      end
  end.

(** [with open(fname, "a") as f: for d in docs: f.write(... + "\n")]:
    the file is created when absent, extended otherwise.  When the block
    runs to its end every line is in the file.  When it raises, the
    model covers the case where [open] itself raised and the disk is as
    it was; a write that raises midway would leave a file created or
    extended in part, and nothing below says what is on the disk after
    a raising append. *)
Definition append_lines (p : path) (lines : list string) : M world unit := fun w =>
  let w' := World (collections w) (files w) (clock_reads w) (remote_calls w)
                  (S (disk_opens w)) in
  if disk_open E (disk_opens w)
  then (Ok tt,
        World (collections w) (<[p := default [] (files w !! p) ++ lines]> (files w))
              (clock_reads w) (remote_calls w) (S (disk_opens w)))
  else (Raise OSError, w').

(** [p.unlink()] *)
Definition unlink (p : path) : M world unit :=
  modify (fun w => World (collections w) (delete p (files w))
                         (clock_reads w) (remote_calls w) (disk_opens w)).

(** [insert_batch].  The backlog directory exists from start-up on
    ([_ensure_dir] finds it). *)
Definition insert_batch (s : MongoSink) (docs : list doc) : M world unit :=
  match docs with
  | [] => mret tt
  | _ =>
      try_except (insert_many s docs)
        (fun _ =>
           t ← time_time;
           stamp ← of_option ValueError (py_int t);
           append_lines (backlog_dir s, stamp) (map dumps docs))
  end.

(** [pathlib.Path(self.backlog_dir).glob("backlog_*.ndjson")] *)
Definition glob (w : world) (dir : string) : list path :=
  filter (fun p => p.1 = dir) (map fst (map_to_list (files w))).

(** The body of the loop of [flush_backlog] for the file [p]. *)
Definition replay_file (s : MongoSink) (p : path) : M world unit :=
  try_except
    (w ← get;
     lines ← of_option FileNotFoundError (files w !! p);
     docs ← of_option JSONDecodeError (mapM loads lines);
     match docs with
     | [] => mret tt
     | _ => insert_many s docs
     end;;
     unlink p)
    (fun _ => mret tt).

Definition flush_backlog (s : MongoSink) : M world unit :=
  w ← get;
  for_each (glob w (backlog_dir s)) (replay_file s).

#[local] Arguments insert_many : simpl never.

(** [w'] has the store of [w] and possibly more: every collection keeps
    its documents, in order, in front of what it gained. *)
Definition grows (w w' : world) : Prop :=
  forall c, exists more, coll w' c = coll w c ++ more.

(** The whole content of a backlog file reached the sink's collection:
    every line parsed, and the documents sit in the collection, in the
    file's order. *)
Definition delivered (s : MongoSink) (lines : list string) (w : world) : Prop :=
  exists docs, mapM loads lines = Some docs /\
  exists pre post, coll w (col s) = pre ++ docs ++ post.

Lemma grows_refl (w : world) : grows w w.
Proof. intros c. exists []. now rewrite app_nil_r. Qed.

Lemma grows_same (w w' : world) : collections w' = collections w -> grows w w'.
Proof. intros Hc c. exists []. unfold coll. now rewrite Hc, app_nil_r. Qed.

Lemma grows_trans (w1 w2 w3 : world) : grows w1 w2 -> grows w2 w3 -> grows w1 w3.
Proof.
  intros H12 H23 c. destruct (H12 c) as [m1 E1], (H23 c) as [m2 E2].
  exists (m1 ++ m2). rewrite E2, E1. now rewrite app_assoc.
Qed.

Lemma delivered_grows (s : MongoSink) (lines : list string) (w w' : world) :
  grows w w' -> delivered s lines w -> delivered s lines w'.
Proof.
  intros Hg (docs & Hd & pre & post & Hc). exists docs. split; [exact Hd|].
  destruct (Hg (col s)) as [more Hm].
  exists pre, (post ++ more). rewrite Hm, Hc. now rewrite <- !app_assoc.
Qed.

Lemma coll_insert_eq (w : world) (c : string) (l : list doc) f k r d :
  coll (World (<[c := l]> (collections w)) f k r d) c = l.
Proof. unfold coll. simpl. now rewrite lookup_insert_eq. Qed.

Lemma coll_insert_ne (w : world) (c c' : string) (l : list doc) f k r d :
  c <> c' -> coll (World (<[c := l]> (collections w)) f k r d) c' = coll w c'.
Proof. intros Hne. unfold coll. simpl. now rewrite lookup_insert_ne. Qed.

Lemma grows_insert (w : world) (c : string) (more : list doc) f k r d :
  grows w (World (<[c := coll w c ++ more]> (collections w)) f k r d).
Proof.
  intros c'. destruct (decide (c = c')) as [<-|Hne].
  - exists more. now rewrite coll_insert_eq.
  - exists []. rewrite coll_insert_ne by exact Hne. now rewrite app_nil_r.
Qed.

(** What one [insert_many] of a non-empty list does. *)
Lemma insert_many_cases (s : MongoSink) (docs : list doc) (w : world) :
  docs <> [] ->
  exists w', grows w w' /\ files w' = files w /\
    clock_reads w' = clock_reads w /\ disk_opens w' = disk_opens w /\
    remote_calls w' = S (remote_calls w) /\
    match remote E (remote_calls w) with
    | Inserted =>
        insert_many s docs w = (Ok tt, w') /\
        coll w' (col s) = coll w (col s) ++ docs
    | InsertFailed landed =>
        insert_many s docs w = (Raise PyMongoError, w') /\
        coll w' (col s) = coll w (col s) ++ keep_landed landed docs
    end.
Proof.
  intros Hne. unfold insert_many.
  destruct docs as [|d docs]; [congruence|].
  destruct (remote E (remote_calls w)) as [|landed];
    eexists; (split; [apply grows_insert|]); simpl;
    repeat split; apply coll_insert_eq.
Qed.

(** [insert_batch] when the store takes the batch. *)
Lemma insert_batch_ok (s : MongoSink) (docs : list doc) (w : world) :
  docs <> [] -> remote E (remote_calls w) = Inserted ->
  exists w', insert_batch s docs w = (Ok tt, w') /\ grows w w' /\
    files w' = files w /\ coll w' (col s) = coll w (col s) ++ docs.
Proof.
  intros Hne Hrem.
  destruct (insert_many_cases s docs w Hne) as (w1 & Hg & Hf & _ & _ & _ & Hcase).
  rewrite Hrem in Hcase. destruct Hcase as [Hrun Hcoll].
  exists w1. unfold insert_batch, try_except.
  destruct docs as [|d docs]; [congruence|]. rewrite Hrun. auto.
Qed.

(** [insert_batch] when the store refuses the batch and the backlog
    write goes through: the lines of the batch are appended to the file
    named after the current second. *)
Lemma insert_batch_backlogged (s : MongoSink) (docs : list doc) (w : world)
    (landed : list bool) (stamp : Z) :
  docs <> [] -> remote E (remote_calls w) = InsertFailed landed ->
  py_int (clock E (clock_reads w)) = Some stamp ->
  disk_open E (disk_opens w) = true ->
  exists w', insert_batch s docs w = (Ok tt, w') /\ grows w w' /\
    files w' = <[(backlog_dir s, stamp) :=
                   default [] (files w !! (backlog_dir s, stamp)) ++ map dumps docs]>
                 (files w) /\
    coll w' (col s) = coll w (col s) ++ keep_landed landed docs.
Proof.
  intros Hne Hrem Hstamp Hdisk.
  destruct (insert_many_cases s docs w Hne) as (w1 & Hg & Hf & Hc & Hd & _ & Hcase).
  rewrite Hrem in Hcase. destruct Hcase as [Hrun Hcoll].
  unfold insert_batch, try_except.
  destruct docs as [|d docs]; [congruence|]. rewrite Hrun.
  unfold mbind, M_bind, time_time. rewrite Hc, Hstamp. cbn.
  unfold append_lines. cbn. rewrite Hd, Hdisk, Hf.
  eexists. split; [reflexivity|]. split; [|split; [reflexivity | exact Hcoll]].
  eapply grows_trans; [exact Hg | now apply grows_same].
Qed.

(** [insert_batch] when the store refuses the batch and the backlog
    write raises as well: the exception leaves [insert_batch]. *)
Lemma insert_batch_raises (s : MongoSink) (docs : list doc) (w : world)
    (landed : list bool) :
  docs <> [] -> remote E (remote_calls w) = InsertFailed landed ->
  py_int (clock E (clock_reads w)) = None \/ disk_open E (disk_opens w) = false ->
  exists e w', insert_batch s docs w = (Raise e, w') /\
    coll w' (col s) = coll w (col s) ++ keep_landed landed docs.
Proof.
  intros Hne Hrem Hbad.
  destruct (insert_many_cases s docs w Hne) as (w1 & Hg & Hf & Hc & Hd & _ & Hcase).
  rewrite Hrem in Hcase. destruct Hcase as [Hrun Hcoll].
  unfold insert_batch, try_except.
  destruct docs as [|d docs]; [congruence|]. rewrite Hrun.
  unfold mbind, M_bind, time_time. rewrite Hc.
  destruct (py_int (clock E (clock_reads w))) as [stamp|] eqn:Hstamp; cbn.
  - destruct Hbad as [?|Hdisk]; [discriminate|].
    unfold append_lines. cbn. rewrite Hd, Hdisk.
    eexists _, _. split; [reflexivity|]. exact Hcoll.
  - eexists _, _. split; [reflexivity|]. exact Hcoll.
Qed.

(** One backlog file: the handler swallows every exception; the file is
    either untouched or deleted with its whole content appended to the
    collection. *)
Lemma replay_file_cases (s : MongoSink) (p : path) (w : world) :
  exists w', replay_file s p w = (Ok tt, w') /\ grows w w' /\
    (files w' = files w \/
     exists lines docs,
       files w !! p = Some lines /\ mapM loads lines = Some docs /\
       files w' = delete p (files w) /\
       coll w' (col s) = coll w (col s) ++ docs).
Proof.
  unfold replay_file, try_except.
  unfold mbind, M_bind, get at 1.
  destruct (files w !! p) as [lines|] eqn:Hp; cbn;
    [|exists w; auto using grows_refl].
  destruct (mapM loads lines) as [docs|] eqn:Hd; cbn;
    [|exists w; auto using grows_refl].
  destruct docs as [|d docs]; cbn.
  - eexists. split; [reflexivity|]. split; [now apply grows_same|].
    right. exists lines, []. rewrite app_nil_r. auto.
  - destruct (insert_many_cases s (d :: docs) w ltac:(discriminate))
      as (w1 & Hg & Hf & _ & _ & _ & Hcase).
    destruct (remote E (remote_calls w)) as [|landed];
      destruct Hcase as [Hrun Hcoll]; rewrite Hrun; cbn.
    + eexists. split; [reflexivity|].
      split; [eapply grows_trans; [exact Hg | now apply grows_same]|].
      right. exists lines, (d :: docs). cbn. rewrite Hf. auto.
    + exists w1. split; [reflexivity|]. split; [exact Hg|]. now left.
Qed.

(** The loop of [flush_backlog] over any list of paths. *)
Lemma replay_all (s : MongoSink) (ps : list path) (w : world) :
  exists w', for_each ps (replay_file s) w = (Ok tt, w') /\ grows w w' /\
    (forall p lines, files w' !! p = Some lines -> files w !! p = Some lines) /\
    (forall p lines, files w !! p = Some lines ->
       files w' !! p = Some lines \/
       (files w' !! p = None /\ p ∈ ps /\ delivered s lines w')).
Proof.
  revert w. induction ps as [|p0 ps IH]; intros w.
  - exists w. cbn. split; [reflexivity|]. split; [apply grows_refl|]. auto.
  - destruct (replay_file_cases s p0 w) as (w1 & Hrun & Hg1 & Hstep).
    destruct (IH w1) as (w' & Hrest & Hg2 & Hsub & Hkeep).
    exists w'. split.
    { cbn [for_each]. unfold mbind, M_bind. rewrite Hrun. exact Hrest. }
    split; [eapply grows_trans; eauto|].
    destruct Hstep as [Hsame | (lines0 & docs0 & Hp0 & Hd0 & Hdel & Hcoll)].
    + rewrite Hsame in *. split; [exact Hsub|].
      intros p lines Hp. destruct (Hkeep p lines Hp) as [?|(? & ? & ?)];
        [now left | right; repeat split; auto; now apply list_elem_of_further].
    + split.
      { intros p lines Hp. apply Hsub in Hp. rewrite Hdel in Hp.
        apply lookup_delete_Some in Hp. tauto. }
      intros p lines Hp. destruct (decide (p = p0)) as [->|Hne].
      * right. assert (Hnone : files w' !! p0 = None).
        { destruct (files w' !! p0) as [l|] eqn:El; [|reflexivity].
          apply Hsub in El. rewrite Hdel, lookup_delete_eq in El. discriminate. }
        split; [exact Hnone|]. split; [apply list_elem_of_here|].
        apply (delivered_grows s lines w1 w' Hg2).
        rewrite Hp0 in Hp. injection Hp as <-.
        exists docs0. split; [exact Hd0|].
        exists (coll w (col s)), []. now rewrite app_nil_r.
      * assert (Hp1 : files w1 !! p = Some lines)
          by (rewrite Hdel, lookup_delete_ne by congruence; exact Hp).
        destruct (Hkeep p lines Hp1) as [?|(? & ? & ?)];
          [now left | right; repeat split; auto; now apply list_elem_of_further].
Qed.

(** [flush_backlog] returns, and loses nothing. *)
Lemma flush_backlog_runs (s : MongoSink) (w : world) :
  exists w', flush_backlog s w = (Ok tt, w') /\ grows w w' /\
    (forall p lines, files w !! p = Some lines ->
       files w' !! p = Some lines \/
       (files w' !! p = None /\ delivered s lines w')).
Proof.
  destruct (replay_all s (glob w (backlog_dir s)) w)
    as (w' & Hrun & Hg & _ & Hkeep).
  exists w'. split; [exact Hrun|]. split; [exact Hg|].
  intros p lines Hp. destruct (Hkeep p lines Hp) as [?|(? & _ & ?)]; auto.
Qed.

Lemma glob_dir (w : world) (dir : string) (p : path) :
  p ∈ glob w dir -> p.1 = dir.
Proof. unfold glob. intros Hin. apply list_elem_of_filter in Hin. tauto. Qed.

(** C4. [flush_backlog] never raises; it creates and rewrites no file;
    a backlog file that is gone afterwards lay in the sink's directory,
    parsed line by line, and its whole content sits in the sink's
    collection; every other file is still there with its lines
    unchanged.  When the write of a file's documents fails, also after a
    part of them was written, [replay_file] keeps the file as it was. *)
Theorem flush_backlog_file_kept_or_delivered (s : MongoSink) (w : world) :
  (exists w', flush_backlog s w = (Ok tt, w') /\ grows w w' /\
     (forall p lines, files w' !! p = Some lines -> files w !! p = Some lines) /\
     (forall p lines, files w !! p = Some lines ->
        files w' !! p = Some lines \/
        (files w' !! p = None /\ p.1 = backlog_dir s /\ delivered s lines w'))) /\
  (forall p lines docs landed,
     files w !! p = Some lines -> mapM loads lines = Some docs -> docs <> [] ->
     remote E (remote_calls w) = InsertFailed landed ->
     exists w1, replay_file s p w = (Ok tt, w1) /\ files w1 = files w /\
       coll w1 (col s) = coll w (col s) ++ keep_landed landed docs).
Proof.
  split.
  - destruct (replay_all s (glob w (backlog_dir s)) w)
      as (w' & Hrun & Hg & Hsub & Hkeep).
    exists w'. split; [exact Hrun|]. split; [exact Hg|]. split; [exact Hsub|].
    intros p lines Hp. destruct (Hkeep p lines Hp) as [?|(Hn & Hin & Hd)];
      [now left|]. right. apply glob_dir in Hin. auto.
  - intros p lines docs landed Hp Hd Hne Hfail.
    destruct (insert_many_cases s docs w Hne) as (w1 & _ & Hf & _ & _ & _ & Hcase).
    rewrite Hfail in Hcase. destruct Hcase as [Hrun Hcoll].
    exists w1. split; [|split; [exact Hf | exact Hcoll]].
    unfold replay_file, try_except.
    unfold mbind, M_bind, get at 1. rewrite Hp. cbn. rewrite Hd. cbn.
    destruct docs as [|d docs]; [congruence|].
    rewrite Hrun. reflexivity.
Qed.

(** *** What a sink touches, and what replay achieves *)

(** The collections other than [s]'s are as they were. *)
Definition others_kept (s : MongoSink) (w w' : world) : Prop :=
  forall c, c <> col s -> coll w' c = coll w c.

Lemma others_kept_same (s : MongoSink) (w w' : world) :
  collections w' = collections w -> others_kept s w w'.
Proof. intros Hc c _. unfold coll. now rewrite Hc. Qed.

Lemma others_kept_trans (s : MongoSink) (w1 w2 w3 : world) :
  others_kept s w1 w2 -> others_kept s w2 w3 -> others_kept s w1 w3.
Proof. intros H12 H23 c Hc. now rewrite H23, H12. Qed.

(** The world a successful replay of [p], holding [docs], leaves. *)
Definition sent_world (s : MongoSink) (p : path) (docs : list doc) (w : world)
  : world :=
  match docs with
  | [] => World (collections w) (delete p (files w))
                (clock_reads w) (remote_calls w) (disk_opens w)
  | _ => World (<[col s := coll w (col s) ++ docs]> (collections w))
               (delete p (files w))
               (clock_reads w) (S (remote_calls w)) (disk_opens w)
  end.

(** The world a refused [insert_many] leaves. *)
Definition refused_world (s : MongoSink) (landed : list bool) (docs : list doc)
    (w : world) : world :=
  World (<[col s := coll w (col s) ++ keep_landed landed docs]> (collections w))
        (files w) (clock_reads w) (S (remote_calls w)) (disk_opens w).

Lemma insert_many_sent (s : MongoSink) (docs : list doc) (w : world) :
  docs <> [] -> remote E (remote_calls w) = Inserted ->
  insert_many s docs w =
  (Ok tt, World (<[col s := coll w (col s) ++ docs]> (collections w))
                (files w) (clock_reads w) (S (remote_calls w)) (disk_opens w)).
Proof.
  intros Hne Hrem. unfold insert_many.
  destruct docs; [congruence|]. now rewrite Hrem.
Qed.

Lemma insert_many_refused (s : MongoSink) (docs : list doc) (w : world)
    (landed : list bool) :
  docs <> [] -> remote E (remote_calls w) = InsertFailed landed ->
  insert_many s docs w = (Raise PyMongoError, refused_world s landed docs w).
Proof.
  intros Hne Hrem. unfold insert_many.
  destruct docs; [congruence|]. now rewrite Hrem.
Qed.

Lemma replay_file_missing (s : MongoSink) (p : path) (w : world) :
  files w !! p = None -> replay_file s p w = (Ok tt, w).
Proof.
  intros Hp. unfold replay_file, try_except.
  unfold mbind, M_bind, get at 1. now rewrite Hp.
Qed.

Lemma replay_file_unparsed (s : MongoSink) (p : path) (w : world)
    (lines : list string) :
  files w !! p = Some lines -> mapM loads lines = None ->
  replay_file s p w = (Ok tt, w).
Proof.
  intros Hp Hd. unfold replay_file, try_except.
  unfold mbind, M_bind, get at 1. rewrite Hp. cbn. now rewrite Hd.
Qed.

Lemma replay_file_sent (s : MongoSink) (p : path) (w : world)
    (lines : list string) (docs : list doc) :
  files w !! p = Some lines -> mapM loads lines = Some docs ->
  (docs <> [] -> remote E (remote_calls w) = Inserted) ->
  replay_file s p w = (Ok tt, sent_world s p docs w).
Proof.
  intros Hp Hd Hrem. unfold replay_file, try_except.
  unfold mbind, M_bind, get at 1. rewrite Hp. cbn. rewrite Hd. cbn.
  destruct docs as [|d docs]; [reflexivity|].
  rewrite insert_many_sent by (discriminate || (apply Hrem; discriminate)).
  reflexivity.
Qed.

Lemma replay_file_refused (s : MongoSink) (p : path) (w : world)
    (lines : list string) (docs : list doc) (landed : list bool) :
  files w !! p = Some lines -> mapM loads lines = Some docs -> docs <> [] ->
  remote E (remote_calls w) = InsertFailed landed ->
  replay_file s p w = (Ok tt, refused_world s landed docs w).
Proof.
  intros Hp Hd Hne Hrem. unfold replay_file, try_except.
  unfold mbind, M_bind, get at 1. rewrite Hp. cbn. rewrite Hd. cbn.
  destruct docs as [|d docs]; [congruence|].
  now rewrite (insert_many_refused s (d :: docs) w landed).
Qed.

(** Every way one turn of the replay loop can go. *)
Lemma replay_file_world (s : MongoSink) (p : path) (w : world) :
  exists w', replay_file s p w = (Ok tt, w') /\
    (w' = w \/
     (exists lines docs, files w !! p = Some lines /\
        mapM loads lines = Some docs /\ w' = sent_world s p docs w) \/
     (exists landed docs, w' = refused_world s landed docs w)).
Proof.
  destruct (files w !! p) as [lines|] eqn:Hp;
    [|exists w; split; [now apply replay_file_missing | now left]].
  destruct (mapM loads lines) as [docs|] eqn:Hd;
    [|exists w; split; [now apply (replay_file_unparsed s p w lines) | now left]].
  destruct (decide (docs = [])) as [->|Hne].
  { eexists. split; [apply (replay_file_sent s p w lines []); auto; congruence|].
    right; left. eauto. }
  destruct (remote E (remote_calls w)) as [|landed] eqn:Hrem.
  - eexists. split; [apply (replay_file_sent s p w lines docs); auto|].
    right; left. eauto.
  - eexists. split; [apply (replay_file_refused s p w lines docs landed); auto|].
    right; right. eauto.
Qed.

Lemma sent_world_others (s : MongoSink) (p : path) (docs : list doc) (w : world) :
  others_kept s w (sent_world s p docs w).
Proof.
  intros c Hc. unfold sent_world. destruct docs; [reflexivity|].
  apply coll_insert_ne. congruence.
Qed.

Lemma refused_world_others (s : MongoSink) (landed : list bool)
    (docs : list doc) (w : world) :
  others_kept s w (refused_world s landed docs w).
Proof. intros c Hc. apply coll_insert_ne. congruence. Qed.

Lemma replay_loop_others (s : MongoSink) (ps : list path) (w : world) :
  others_kept s w (for_each ps (replay_file s) w).2.
Proof.
  revert w. induction ps as [|p ps IH]; intros w; [now intros c _|].
  destruct (replay_file_world s p w) as (w1 & Hrun & Hcase).
  cbn [for_each]. unfold mbind, M_bind. rewrite Hrun.
  apply (others_kept_trans s w w1); [|apply IH].
  destruct Hcase as [->|[(l & d & _ & _ & ->)|(l & d & ->)]];
    [now intros c _ | apply sent_world_others | apply refused_world_others].
Qed.

(** X9. [insert_batch] drops no document of a non-empty batch in
    silence.  When it returns, either the store took the whole batch
    (appended to the sink's collection, no file touched), or the store
    refused it and every document of the batch was appended, in order,
    to the backlog file of the sink's directory named after the current
    second.  It raises only after the store refused the batch, and then
    the collection holds what had landed. *)
Theorem insert_batch_settles (s : MongoSink) (docs : list doc) (w : world) :
  docs <> [] ->
  exists r w', insert_batch s docs w = (r, w') /\
    match r with
    | Ok _ =>
        (remote E (remote_calls w) = Inserted /\
         files w' = files w /\ coll w' (col s) = coll w (col s) ++ docs) \/
        (exists landed stamp,
           remote E (remote_calls w) = InsertFailed landed /\
           py_int (clock E (clock_reads w)) = Some stamp /\
           files w' = <[(backlog_dir s, stamp) :=
                          default [] (files w !! (backlog_dir s, stamp))
                          ++ map dumps docs]> (files w) /\
           coll w' (col s) = coll w (col s) ++ keep_landed landed docs)
    | Raise _ =>
        exists landed,
          remote E (remote_calls w) = InsertFailed landed /\
          coll w' (col s) = coll w (col s) ++ keep_landed landed docs
    end.
Proof.
  intros Hne.
  destruct (remote E (remote_calls w)) as [|landed] eqn:Hrem.
  - destruct (insert_batch_ok s docs w Hne Hrem) as (w' & Hrun & _ & Hf & Hc).
    exists (Ok tt), w'. split; [exact Hrun|]. now left.
  - destruct (py_int (clock E (clock_reads w))) as [stamp|] eqn:Hstamp;
      [destruct (disk_open E (disk_opens w)) eqn:Hdisk|].
    + destruct (insert_batch_backlogged s docs w landed stamp Hne Hrem Hstamp Hdisk)
        as (w' & Hrun & _ & Hf & Hc).
      exists (Ok tt), w'. split; [exact Hrun|]. right.
      exists landed, stamp. auto.
    + destruct (insert_batch_raises s docs w landed Hne Hrem (or_intror Hdisk))
        as (e & w' & Hrun & Hc).
      exists (Raise e), w'. split; [exact Hrun|]. exists landed. auto.
    + destruct (insert_batch_raises s docs w landed Hne Hrem (or_introl Hstamp))
        as (e & w' & Hrun & Hc).
      exists (Raise e), w'. split; [exact Hrun|]. exists landed. auto.
Qed.

(** X10. A sink writes to its own collection and its own backlog
    directory only: [insert_batch] and [flush_backlog] leave every other
    collection and every file outside [backlog_dir] exactly as they
    were. *)
Theorem sink_keeps_to_itself (s : MongoSink) (docs : list doc) (w : world) :
  (let w' := (insert_batch s docs w).2 in
   others_kept s w w' /\
   forall p, p.1 <> backlog_dir s -> files w' !! p = files w !! p) /\
  (let w' := (flush_backlog s w).2 in
   others_kept s w w' /\
   forall p, p.1 <> backlog_dir s -> files w' !! p = files w !! p).
Proof.
  split.
  - destruct docs as [|d docs]; [split; [now intros c _ | reflexivity]|].
    unfold insert_batch, try_except.
    destruct (remote E (remote_calls w)) as [|landed] eqn:Hrem.
    + rewrite insert_many_sent by (assumption || discriminate). cbn.
      split; [|reflexivity]. intros c Hc. apply coll_insert_ne. congruence.
    + rewrite (insert_many_refused s (d :: docs) w landed)
        by (assumption || discriminate).
      unfold mbind, M_bind, time_time, refused_world. cbn.
      destruct (py_int (clock E (clock_reads w))) as [stamp|]; cbn.
      * unfold append_lines. cbn.
        destruct (disk_open E (disk_opens w)); cbn;
          (split; [intros c Hc; apply coll_insert_ne; congruence|]);
          [|reflexivity].
        intros p Hp. apply lookup_insert_ne. intros <-. now apply Hp.
      * split; [intros c Hc; apply coll_insert_ne; congruence | reflexivity].
  - assert (Hfl : flush_backlog s w
                  = for_each (glob w (backlog_dir s)) (replay_file s) w)
      by reflexivity.
    cbv zeta. rewrite Hfl.
    split; [apply replay_loop_others|].
    intros p Hp.
    destruct (replay_all s (glob w (backlog_dir s)) w)
      as (w' & Hrun & _ & Hsub & Hkeep).
    rewrite Hrun. cbn.
    destruct (files w !! p) as [lines|] eqn:Hl.
    + destruct (Hkeep p lines Hl) as [?|(_ & Hin & _)]; [assumption|].
      apply glob_dir in Hin. contradiction.
    + destruct (files w' !! p) as [lines|] eqn:Hl'; [|reflexivity].
      apply Hsub in Hl'. congruence.
Qed.

(** Every backlog file of the directory parses, line by line. *)
Definition all_parse (dir : string) (w : world) : Prop :=
  forall p lines, files w !! p = Some lines -> p.1 = dir ->
    is_Some (mapM loads lines).

(** The store takes every write from the [k]-th on. *)
Definition store_up_from (k : nat) : Prop :=
  forall n, (k <= n)%nat -> remote E n = Inserted.

Lemma sent_world_calls (s : MongoSink) (p : path) (docs : list doc) (w : world) :
  (remote_calls w <= remote_calls (sent_world s p docs w))%nat /\
  files (sent_world s p docs w) = delete p (files w).
Proof. unfold sent_world. destruct docs; cbn; split; auto; lia. Qed.

(** The replay loop once the store is back: every listed file of the
    directory is gone afterwards. *)
Lemma replay_loop_recovers (s : MongoSink) (ps : list path) (w : world) :
  store_up_from (remote_calls w) -> all_parse (backlog_dir s) w ->
  (forall p, p ∈ ps -> p.1 = backlog_dir s) ->
  exists w', for_each ps (replay_file s) w = (Ok tt, w') /\
    (forall p, p ∈ ps -> files w' !! p = None) /\
    (forall p lines, files w' !! p = Some lines -> files w !! p = Some lines).
Proof.
  revert w. induction ps as [|p0 ps IH]; intros w Hup Hparse Hdir.
  - exists w. split; [reflexivity|]. split; [|auto].
    intros p Hp. now apply elem_of_nil in Hp.
  - assert (Hstep : exists w1, replay_file s p0 w = (Ok tt, w1) /\
        (remote_calls w <= remote_calls w1)%nat /\
        files w1 !! p0 = None /\
        (forall p lines, files w1 !! p = Some lines -> files w !! p = Some lines)).
    { destruct (files w !! p0) as [lines|] eqn:Hp0.
      - destruct (Hparse p0 lines Hp0 (Hdir p0 (list_elem_of_here _ _))) as [docs Hd].
        exists (sent_world s p0 docs w). split.
        + apply (replay_file_sent s p0 w lines docs Hp0 Hd).
          intros _. apply Hup. lia.
        + destruct (sent_world_calls s p0 docs w) as [Hc Hf].
          split; [exact Hc|]. rewrite Hf. split; [apply lookup_delete_eq|].
          intros p l Hl. apply lookup_delete_Some in Hl. tauto.
      - exists w. split; [now apply replay_file_missing|]. auto. }
    destruct Hstep as (w1 & Hrun & Hcalls & Hgone & Hsub1).
    destruct (IH w1) as (w' & Hrest & Hnone & Hsub).
    { intros n Hn. apply Hup. lia. }
    { intros p lines Hl Hd. apply Hsub1 in Hl. eauto. }
    { intros p Hp. apply Hdir. now apply list_elem_of_further. }
    exists w'. split.
    { cbn [for_each]. unfold mbind, M_bind. rewrite Hrun. exact Hrest. }
    split.
    + intros p Hp. apply elem_of_cons in Hp as [->|Hp]; [|now apply Hnone].
      destruct (files w' !! p0) as [l|] eqn:El; [|reflexivity].
      apply Hsub in El. congruence.
    + intros p lines Hl. apply Hsub1, Hsub, Hl.
Qed.

Lemma glob_elem (w : world) (dir : string) (p : path) :
  p ∈ glob w dir <-> is_Some (files w !! p) /\ p.1 = dir.
Proof.
  unfold glob. rewrite list_elem_of_filter, list_elem_of_fmap. split.
  - intros [Hd ([q l] & -> & Hin)]. apply elem_of_map_to_list in Hin.
    split; [eauto | exact Hd].
  - intros [[l Hl] Hd]. split; [exact Hd|].
    exists (p, l). split; [reflexivity | now apply elem_of_map_to_list].
Qed.

(** Recovery, as a lemma to build on. *)
Lemma flush_backlog_recovers_from (s : MongoSink) (w : world) :
  store_up_from (remote_calls w) -> all_parse (backlog_dir s) w ->
  exists w', flush_backlog s w = (Ok tt, w') /\
    (forall p, p.1 = backlog_dir s -> files w' !! p = None) /\
    (forall p lines, files w !! p = Some lines -> p.1 = backlog_dir s ->
       delivered s lines w').
Proof.
  intros Hup Hparse.
  destruct (replay_loop_recovers s (glob w (backlog_dir s)) w Hup Hparse)
    as (w' & Hrun & Hnone & Hsub).
  { intros p Hp. now apply glob_dir in Hp. }
  assert (Hgone : forall p, p.1 = backlog_dir s -> files w' !! p = None).
  { intros p Hd. destruct (files w !! p) as [l|] eqn:Hl.
    - apply Hnone. apply glob_elem. eauto.
    - destruct (files w' !! p) as [l|] eqn:El; [|reflexivity].
      apply Hsub in El. congruence. }
  exists w'. split; [exact Hrun|]. split; [exact Hgone|].
  intros p lines Hl Hd.
  destruct (flush_backlog_runs s w) as (w2 & Hrun2 & _ & Hkeep).
  assert (Hrun' : flush_backlog s w = (Ok tt, w')) by exact Hrun.
  rewrite Hrun' in Hrun2. injection Hrun2 as <-.
  destruct (Hkeep p lines Hl) as [Hstill|[_ Hdel]]; [|exact Hdel].
  rewrite (Hgone p Hd) in Hstill. discriminate.
Qed.

(** X11. Replay on recovery: when the store takes every write from now
    on and every backlog file of the directory parses, [flush_backlog]
    returns with the directory empty, and the whole content of each file
    that was there sits in the sink's collection. *)
Theorem flush_backlog_recovers (s : MongoSink) (w : world) :
  store_up_from (remote_calls w) -> all_parse (backlog_dir s) w ->
  exists w', flush_backlog s w = (Ok tt, w') /\
    glob w' (backlog_dir s) = [] /\
    (forall p, p.1 = backlog_dir s -> files w' !! p = None) /\
    (forall p lines, files w !! p = Some lines -> p.1 = backlog_dir s ->
       delivered s lines w').
Proof.
  intros Hup Hparse.
  destruct (flush_backlog_recovers_from s w Hup Hparse)
    as (w' & Hrun & Hgone & Hdel).
  exists w'. split; [exact Hrun|]. split; [|split; [exact Hgone | exact Hdel]].
  apply elem_of_nil_inv. intros p Hp. apply glob_elem in Hp as [[l Hl] Hd].
  rewrite (Hgone p Hd) in Hl. discriminate.
Qed.

(** X12. A backlog file with a line that does not parse is never sent
    and never deleted: its turn of the replay loop changes nothing (the
    store is not even called), and after [flush_backlog] the file is
    still there with the same lines. *)
Theorem unparseable_backlog_file_stays (s : MongoSink) (p : path)
    (lines : list string) (w : world) :
  files w !! p = Some lines -> mapM loads lines = None ->
  replay_file s p w = (Ok tt, w) /\
  exists w', flush_backlog s w = (Ok tt, w') /\ files w' !! p = Some lines.
Proof.
  intros Hp Hd. split; [now apply (replay_file_unparsed s p w lines)|].
  destruct (flush_backlog_runs s w) as (w' & Hrun & _ & Hkeep).
  exists w'. split; [exact Hrun|].
  destruct (Hkeep p lines Hp) as [?|[_ (docs & Hdocs & _)]]; [assumption|].
  congruence.
Qed.

(** The batch read back from its own lines. *)
Lemma loads_dumps_batch (docs : list doc) :
  (forall d, d ∈ docs -> loads (dumps d) = Some d) ->
  mapM loads (map dumps docs) = Some docs.
Proof.
  intros Hrt. apply mapM_Some. induction docs as [|d docs IH]; constructor.
  - apply Hrt. apply list_elem_of_here.
  - apply IH. intros d' Hd'. apply Hrt. now apply list_elem_of_further.
Qed.

(** The world a refused batch leaves when its backlog file is new. *)
Lemma partial_world (s : MongoSink) (docs : list doc) (w : world)
    (landed : list bool) (stamp : Z) :
  docs <> [] ->
  remote E (remote_calls w) = InsertFailed landed ->
  py_int (clock E (clock_reads w)) = Some stamp ->
  disk_open E (disk_opens w) = true ->
  files w !! (backlog_dir s, stamp) = None ->
  exists w1, insert_batch s docs w = (Ok tt, w1) /\
    files w1 = <[(backlog_dir s, stamp) := map dumps docs]> (files w) /\
    remote_calls w1 = S (remote_calls w) /\
    coll w1 (col s) = coll w (col s) ++ keep_landed landed docs.
Proof.
  intros Hne Hrem Hstamp Hdisk Hnew.
  eexists. split; [|split; [|split]].
  - unfold insert_batch, try_except.
    destruct docs as [|d docs]; [congruence|].
    rewrite (insert_many_refused s (d :: docs) w landed) by assumption.
    unfold mbind, M_bind, time_time, refused_world. cbn [clock_reads].
    rewrite Hstamp. cbn [of_option mret M_ret].
    unfold append_lines. cbn [disk_opens files collections clock_reads remote_calls].
    rewrite Hdisk, Hnew. reflexivity.
  - reflexivity.
  - reflexivity.
  - apply coll_insert_eq.
Qed.

(** X13. Delivery is at least once, not exactly once: when the store
    refuses a batch after writing some of its documents, and the backlog
    file (new in that second) is replayed once the store is back, the
    file is deleted and the collection holds the documents that had
    landed followed by the whole batch, so the landed ones are stored
    twice. *)
Theorem partial_failure_then_replay_duplicates (s : MongoSink)
    (docs : list doc) (w : world) (landed : list bool) (stamp : Z) :
  docs <> [] ->
  remote E (remote_calls w) = InsertFailed landed ->
  remote E (S (remote_calls w)) = Inserted ->
  py_int (clock E (clock_reads w)) = Some stamp ->
  disk_open E (disk_opens w) = true ->
  files w !! (backlog_dir s, stamp) = None ->
  (forall d, d ∈ docs -> loads (dumps d) = Some d) ->
  exists w1 w2,
    insert_batch s docs w = (Ok tt, w1) /\
    files w1 !! (backlog_dir s, stamp) = Some (map dumps docs) /\
    replay_file s (backlog_dir s, stamp) w1 = (Ok tt, w2) /\
    files w2 = files w /\
    coll w2 (col s) = coll w (col s) ++ keep_landed landed docs ++ docs.
Proof.
  intros Hne Hrem Hnext Hstamp Hdisk Hnew Hrt.
  set (p := (backlog_dir s, stamp)) in *.
  set (w1 := World (<[col s := coll w (col s) ++ keep_landed landed docs]>
                      (collections w))
                   (<[p := map dumps docs]> (files w))
                   (S (clock_reads w)) (S (remote_calls w)) (S (disk_opens w))).
  assert (Hins : insert_batch s docs w = (Ok tt, w1)).
  { unfold insert_batch, try_except.
    destruct docs as [|d docs]; [congruence|].
    rewrite (insert_many_refused s (d :: docs) w landed) by assumption.
    unfold mbind, M_bind, time_time, refused_world. cbn [clock_reads].
    rewrite Hstamp. cbn [of_option mret M_ret].
    unfold append_lines. cbn [disk_opens files collections clock_reads remote_calls].
    rewrite Hdisk. fold p. rewrite Hnew. reflexivity. }
  assert (Hfile : files w1 !! p = Some (map dumps docs))
    by apply lookup_insert_eq.
  exists w1, (sent_world s p docs w1).
  split; [exact Hins|]. split; [exact Hfile|].
  split; [apply (replay_file_sent s p w1 (map dumps docs) docs Hfile
                   (loads_dumps_batch docs Hrt)); intros _; exact Hnext|].
  unfold sent_world. destruct docs as [|d docs]; [congruence|].
  cbn [files]. split.
  - unfold w1. cbn [files]. now apply delete_insert_id.
  - rewrite coll_insert_eq. unfold w1. rewrite coll_insert_eq.
    now rewrite <- app_assoc.
Qed.

(** X14. Two sinks that share a backlog directory replay each other's
    files: after sink [s1] has written a refused batch to the backlog,
    the sweep of sink [s2] over the same directory (store back, files
    parse) empties the directory and sends [s1]'s documents to [s2]'s
    collection; [s1]'s collection only holds what had landed before the
    failure. *)
Theorem shared_directory_cross_replay (s1 s2 : MongoSink) (docs : list doc)
    (w : world) (landed : list bool) (stamp : Z) :
  docs <> [] ->
  backlog_dir s2 = backlog_dir s1 -> col s2 <> col s1 ->
  remote E (remote_calls w) = InsertFailed landed ->
  store_up_from (S (remote_calls w)) ->
  py_int (clock E (clock_reads w)) = Some stamp ->
  disk_open E (disk_opens w) = true ->
  files w !! (backlog_dir s1, stamp) = None ->
  all_parse (backlog_dir s1) w ->
  (forall d, d ∈ docs -> loads (dumps d) = Some d) ->
  exists w1 w2,
    insert_batch s1 docs w = (Ok tt, w1) /\
    flush_backlog s2 w1 = (Ok tt, w2) /\
    (forall p, p.1 = backlog_dir s1 -> files w2 !! p = None) /\
    (exists pre post, coll w2 (col s2) = pre ++ docs ++ post) /\
    coll w2 (col s1) = coll w (col s1) ++ keep_landed landed docs.
Proof.
  intros Hne Hdir Hcol Hrem Hup Hstamp Hdisk Hnew Hparse Hrt.
  destruct (partial_world s1 docs w landed stamp Hne Hrem Hstamp Hdisk Hnew)
    as (w1 & Hins & Hfiles & Hcalls & Hcoll).
  assert (Hfile : files w1 !! (backlog_dir s1, stamp) = Some (map dumps docs))
    by (rewrite Hfiles; apply lookup_insert_eq).
  destruct (flush_backlog_recovers_from s2 w1) as (w2 & Hrun & Hgone & Hdel).
  { now rewrite Hcalls. }
  { rewrite Hdir. intros p lines Hl Hd. rewrite Hfiles in Hl.
    apply lookup_insert_Some in Hl as [[<- <-]|[_ Hl]]; [|eauto].
    rewrite (loads_dumps_batch docs Hrt). eauto. }
  exists w1, w2. split; [exact Hins|]. split; [exact Hrun|].
  split; [intros p Hp; apply Hgone; congruence|]. split.
  - destruct (Hdel _ _ Hfile ltac:(cbn; congruence))
      as (docs' & Hd' & pre & post & Hc).
    rewrite (loads_dumps_batch docs Hrt) in Hd'. injection Hd' as <-. eauto.
  - pose proof (replay_loop_others s2 (glob w1 (backlog_dir s2)) w1 (col s1)
                  ltac:(congruence)) as Hk.
    change (for_each (glob w1 (backlog_dir s2)) (replay_file s2) w1)
      with (flush_backlog s2 w1) in Hk.
    rewrite Hrun in Hk. cbn in Hk. now rewrite Hk.
Qed.

End Sink.

Arguments world : clear implicits.

End MongoUpload.

(* ------------------------------------------------------------------ *)
(** ** ble_receiver.py: the notification callbacks *)

Module BleReceiver.

(** What the callbacks put on the queue: [(node, stream, payload)]. *)
Record packet := Packet {
  node : string;
  stream : string;
  payload : list byte
}.

(** [_cb_raw(node)(_, data)] on the queue [q]. *)
Definition _cb_raw (node : string) (data : list byte) (q : list packet)
  : list packet :=
  if negb (0 <? length data)%nat || negb (length data =? 12)%nat then q
  else q ++ [Packet node "raw" data].

(** [_cb_label(node)(_, data)] on the queue [q]. *)
Definition _cb_label (node : string) (data : list byte) (q : list packet)
  : list packet :=
  if negb (0 <? length data)%nat then q
  else q ++ [Packet node "label" data].

(** A notification arriving from a node, on either characteristic. *)
Inductive notification :=
| RawNotify (nd : string) (data : list byte)
| LabelNotify (nd : string) (data : list byte).

Definition deliver (q : list packet) (n : notification) : list packet :=
  match n with
  | RawNotify nd data => _cb_raw nd data q
  | LabelNotify nd data => _cb_label nd data q
  end.

(** What the consumer may rely on for a queued packet. *)
Definition well_formed (p : packet) : Prop :=
  (stream p = "raw" /\ length (payload p) = 12%nat) \/
  (stream p = "label" /\ payload p <> []).

Lemma deliver_step (q : list packet) (n : notification) :
  deliver q n = q \/ exists p, deliver q n = q ++ [p] /\ well_formed p.
Proof.
  destruct n as [nd data|nd data]; cbn; unfold _cb_raw, _cb_label.
  - destruct (0 <? length data)%nat eqn:E0; cbn; [|now left].
    destruct (length data =? 12)%nat eqn:E12; cbn; [|now left].
    right. eexists. split; [reflexivity|]. left. cbn.
    split; [reflexivity | now apply Nat.eqb_eq].
  - destruct (0 <? length data)%nat eqn:E0; cbn; [|now left].
    right. eexists. split; [reflexivity|]. right. cbn.
    split; [reflexivity|]. intros ->. discriminate.
Qed.

(** X15. The callbacks only ever append to the queue, and whatever
    notifications arrive, every raw packet they queue carries exactly 12
    bytes and every label packet a non-empty payload: a queue that was
    well formed stays so, with its old content in front, in order. *)
Theorem callbacks_keep_queue_well_formed (q : list packet)
    (ns : list notification) :
  Forall well_formed q ->
  Forall well_formed (foldl deliver q ns) /\
  q `prefix_of` foldl deliver q ns /\
  (length (foldl deliver q ns) <= length q + length ns)%nat.
Proof.
  revert q. induction ns as [|n ns IH]; intros q Hq.
  - cbn. split; [exact Hq|]. split; [reflexivity | lia].
  - cbn [foldl].
    destruct (deliver_step q n) as [->|(p & -> & Hp)].
    + destruct (IH q Hq) as (H1 & H2 & H3). split; [exact H1|].
      split; [exact H2 | cbn; lia].
    + destruct (IH (q ++ [p])) as (H1 & H2 & H3).
      { apply Forall_app. split; [exact Hq | now constructor]. }
      split; [exact H1|]. split.
      * etrans; [|exact H2]. now apply prefix_app_r.
      * rewrite length_app in H3. cbn in *. lia.
Qed.

Lemma callbacks_keep_queue_well_formed_witness :
  Forall well_formed
    (foldl deliver []
       [RawNotify "wrist" [Byte.x01; Byte.x02];
        LabelNotify "wrist" [Byte.x57; Byte.x41; Byte.x4c; Byte.x4b];
        LabelNotify "ankle" []]).
Proof.
  apply (callbacks_keep_queue_well_formed []). constructor.
Defined.

End BleReceiver.

(* ------------------------------------------------------------------ *)
(** ** pi_central.py *)

Module PiCentral.

Import PyFloat Effects FeatureExtractor Inference MongoUpload Wire BleReceiver.
Local Open Scope float_scope.

(** [window_size = max(1, int(WINDOW_SECONDS * FS_HZ))], from the two
    settings; [None] when a conversion raises. *)
Definition window_size_of (FS_HZ : Z) (WINDOW_SECONDS : float) : option Z :=
  f ← py_float_of_int FS_HZ;
  k ← py_int (WINDOW_SECONDS * f);
  Some (Z.max 1 k).

(** The window size as the specification words it:
    [round(sample_rate_hz * window_seconds)], at least 1. *)
Definition window_size_rounded (FS_HZ : Z) (WINDOW_SECONDS : float) : option Z :=
  f ← py_float_of_int FS_HZ;
  r ← py_round (WINDOW_SECONDS * f);
  Some (Z.max 1 r).

(** C6, as stated, fails: at 10 Hz and a 0.75 s window the product is
    7.5, the code keeps 7 samples and rounding gives 8. *)
Lemma window_size_not_rounded :
  window_size_of 10 0.75 = Some 7%Z /\
  window_size_rounded 10 0.75 = Some 8%Z /\
  window_size_of 10 0.75 <> window_size_rounded 10 0.75.
Proof. vm_compute. repeat split; discriminate. Qed.

(** C6, amended. The window size is the integer part of the binary64
    product [WINDOW_SECONDS * FS_HZ] (the fraction is dropped, toward
    zero), raised to 1 when below; it is defined whenever the sample
    rate converts to a float and the product is finite. *)
Theorem window_size_truncates (FS_HZ : Z) (WINDOW_SECONDS : float) :
  (forall N, window_size_of FS_HZ WINDOW_SECONDS = Some N ->
     (1 <= N)%Z /\
     exists f k q,
       py_float_of_int FS_HZ = Some f /\
       float_val (WINDOW_SECONDS * f) = Some q /\
       integer_part q k /\ N = Z.max 1 k) /\
  (forall f q, py_float_of_int FS_HZ = Some f ->
     float_val (WINDOW_SECONDS * f) = Some q ->
     exists N, window_size_of FS_HZ WINDOW_SECONDS = Some N).
Proof.
  unfold window_size_of. split.
  - intros N HN.
    destruct (py_float_of_int FS_HZ) as [f|]; [|discriminate]. cbn in HN.
    destruct (py_int (WINDOW_SECONDS * f)) as [k|] eqn:Hk; [|discriminate].
    cbn in HN. injection HN as <-. split; [lia|].
    assert (Hq : exists q, float_val (WINDOW_SECONDS * f) = Some q).
    { unfold py_int in Hk. unfold float_val.
      destruct (Prim2SF (WINDOW_SECONDS * f)); try discriminate; eauto. }
    destruct Hq as [q Hq]. exists f, k, q.
    repeat split; try reflexivity; try exact Hq;
      now apply (py_int_integer_part _ _ _ Hk Hq).
  - intros f q -> Hq. cbn.
    assert (Hk : exists k, py_int (WINDOW_SECONDS * f) = Some k).
    { unfold float_val in Hq. unfold py_int.
      destruct (Prim2SF (WINDOW_SECONDS * f)); try discriminate; eauto. }
    destruct Hk as [k ->]. cbn. eauto.
Qed.

(** *** Label text *)

(** The characters of [_PRINTABLE]: codes 32 to 126. *)
Definition printable (b : byte) : bool :=
  (32 <=? Byte.to_N b)%N && (Byte.to_N b <=? 126)%N.

Fixpoint lstrip (l : list ascii) : list ascii :=
  match l with
  | " "%char :: r => lstrip r
  | _ => l
  end.

(** [str.strip()] on text that holds no whitespace but spaces. *)
Definition strip (l : list ascii) : list ascii :=
  rev (lstrip (rev (lstrip l))).

(** [_sanitize_label_bytes].  Decoding with errors ignored never drops
    or alters a byte below 128, and everything else it yields lies
    outside [_PRINTABLE]; NUL, CR and LF lie outside it too.  So the
    result is the printable bytes, in order, stripped. *)
Definition _sanitize_label_bytes (b : list byte) : string :=
  String.string_of_list_ascii
    (strip (map ascii_of_byte (filter (fun c => printable c = true) b))).

Fixpoint before_comma (l : list ascii) : list ascii :=
  match l with
  | [] => []
  | c :: r => if Ascii.eqb c ","%char then [] else c :: before_comma r
  end.

(** [s.split(",", 1)[0].strip()] *)
Definition label_field (s : string) : string :=
  String.string_of_list_ascii (strip (before_comma (String.list_ascii_of_string s))).

(** *** Documents, settings and state *)

(** The telemetry documents, by their ["type"]. *)
Inductive doc :=
| RawDoc (timestamp device : string) (accel gyro : list float)
| SpeedDoc (timestamp device : string) (acc_mag_g intensity : float) (raw : string)
| LabelDoc (timestamp device label raw : string) (mean std : option float)
| PredictionDoc (timestamp label : string) (probs : option (list float)).

(** The argument of [add_sample]; ["device"] may be missing. *)
Record raw_sample := RawSample {
  device : option string;
  sample_accel : vec3;
  sample_gyro : vec3
}.

Record config := Config {
  FS_HZ : Z;
  WINDOW_SECONDS : float;
  BATCH_UPLOAD_SECONDS : Z;
  SAVE_RAW : Z;
  sensor_sink : option MongoSink;
  pred_sink : option MongoSink;
  PRED_UPLOAD_EAGER : bool
}.

Record wrist_stats := WristStats {
  ws_mean : option float; ws_std : option float; ws_t : float }.
Record ankle_stats := AnkleStats {
  as_acc_mag : option float; as_intensity : option float; as_t : float }.

(** The module-level variables of [pi_central.py], and the world the
    sinks act on. *)
Record state := State {
  buffer : gmap string (list sample);
  sensor_batch : list doc;
  pred_batch : list doc;
  last_upload : float;
  last_stats_wrist : wrist_stats;
  last_stats_ankle : ankle_stats;
  last_raw_ts : gmap string float;
  _last_dbg : float;
  outside : world doc
}.

Definition with_buffer (b : gmap string (list sample)) (st : state) : state :=
  State b (sensor_batch st) (pred_batch st) (last_upload st)
        (last_stats_wrist st) (last_stats_ankle st) (last_raw_ts st)
        (_last_dbg st) (outside st).
Definition with_sensor_batch (b : list doc) (st : state) : state :=
  State (buffer st) b (pred_batch st) (last_upload st)
        (last_stats_wrist st) (last_stats_ankle st) (last_raw_ts st)
        (_last_dbg st) (outside st).
Definition with_pred_batch (b : list doc) (st : state) : state :=
  State (buffer st) (sensor_batch st) b (last_upload st)
        (last_stats_wrist st) (last_stats_ankle st) (last_raw_ts st)
        (_last_dbg st) (outside st).
Definition with_last_upload (t : float) (st : state) : state :=
  State (buffer st) (sensor_batch st) (pred_batch st) t
        (last_stats_wrist st) (last_stats_ankle st) (last_raw_ts st)
        (_last_dbg st) (outside st).
Definition with_wrist_stats (x : wrist_stats) (st : state) : state :=
  State (buffer st) (sensor_batch st) (pred_batch st) (last_upload st)
        x (last_stats_ankle st) (last_raw_ts st) (_last_dbg st) (outside st).
Definition with_ankle_stats (x : ankle_stats) (st : state) : state :=
  State (buffer st) (sensor_batch st) (pred_batch st) (last_upload st)
        (last_stats_wrist st) x (last_raw_ts st) (_last_dbg st) (outside st).
Definition with_last_raw_ts (m : gmap string float) (st : state) : state :=
  State (buffer st) (sensor_batch st) (pred_batch st) (last_upload st)
        (last_stats_wrist st) (last_stats_ankle st) m (_last_dbg st) (outside st).
Definition with_last_dbg (t : float) (st : state) : state :=
  State (buffer st) (sensor_batch st) (pred_batch st) (last_upload st)
        (last_stats_wrist st) (last_stats_ankle st) (last_raw_ts st) t (outside st).
Definition with_outside (w : world doc) (st : state) : state :=
  State (buffer st) (sensor_batch st) (pred_batch st) (last_upload st)
        (last_stats_wrist st) (last_stats_ankle st) (last_raw_ts st)
        (_last_dbg st) w.

(** The state right after the module is loaded at time [t0]. *)
Definition initial_state (t0 : float) (w : world doc) : state :=
  State {[ "wrist" := []; "ankle" := [] ]} [] [] t0
        (WristStats None None 0) (AnkleStats None None 0)
        {[ "wrist" := 0; "ankle" := 0 ]} 0 w.

Definition _to_vec3_dict (v : vec3) : vec3 :=
  match v with
  | VDict d => VDict {[ "x" := dict_get d "x"; "y" := dict_get d "y";
                        "z" := dict_get d "z" ]}
  | VSeq x y z => VDict {[ "x" := x; "y" := y; "z" := z ]}
  end.

(** [l[-k:]] *)
Definition py_last {A} (k : Z) (l : list A) : list A :=
  if (0 <? k)%Z then drop (length l - Z.to_nat k) l
  else drop (Z.to_nat (- k)) l.

(** [x or 0.0] for an optional float: [None] and zeros are falsy. *)
Definition or_zero (o : option float) : float :=
  match o with
  | Some x => if x =? 0 then 0 else x
  | None => 0
  end.

(** The three-way threshold of the synthetic prediction. *)
Definition synthetic_label (m : float) : string :=
  if m <? 0.15 then "Idle" else if m <? 0.50 then "Walking" else "Running".

Section Pipeline.

(** [json.dumps(d, default=str)] / [json.loads], the surroundings,
    [datetime.isoformat], [_extract_floats] (a regular-expression scan
    followed by [float]), numpy's reductions, the engine built at
    start-up, the settings and the window size computed from them. *)
Variable dumps : doc -> string.
Variable loads : string -> option doc.
Variable E : env.
Variable isoformat : float -> string.
Variable _extract_floats : string -> list float.
Variable np_mean np_std_ddof1 np_min np_max : list float -> float.
Variable engine : InferenceEngine.
Variable cfg : config.
Variable window_size : Z.

(** A sink operation, run on the world inside the state. *)
Definition on_world {A} (m : M (world doc) A) : M state A :=
  zoom outside with_outside m.

Definition now : M state float := on_world (time_time E).

(** [datetime.utcnow().isoformat() + "Z"] *)
Definition utc_stamp : M state string :=
  t ← now; mret (isoformat t +:+ "Z").

Definition add_sample (s : raw_sample) : M state unit :=
  let limb := default "wrist" (device s) in
  st ← get;
  match buffer st !! limb with
  | None => mret tt
  | Some buf =>
      let accel := _to_vec3_dict (sample_accel s) in
      let gyro := _to_vec3_dict (sample_gyro s) in
      let norm := Sample accel gyro in
      let appended := buf ++ [norm] in
      t ← now;
      modify (fun st => with_last_raw_ts (<[limb := t]> (last_raw_ts st)) st);;
      let max_keep := (window_size * 3)%Z in
      let kept := if (max_keep <? Z.of_nat (length appended))%Z
                  then py_last max_keep appended else appended in
      modify (fun st => with_buffer (<[limb := kept]> (buffer st)) st);;
      if (SAVE_RAW cfg =? 0)%Z then mret tt
      else
        ts ← utc_stamp;
        let '(ax, ay, az) := _get_vec3 accel in
        let '(gx, gy, gz) := _get_vec3 gyro in
        modify (fun st =>
          with_sensor_batch
            (sensor_batch st ++ [RawDoc ts limb [ax; ay; az] [gx; gy; gz]]) st)
  end.

(** One sink's part of an upload: [try: insert_batch; flush_backlog;
    batch = [] except: keep].  Returns the batch to keep in memory. *)
Definition flush_sink (sink : option MongoSink) (batch : list doc)
  : M (world doc) (list doc) :=
  match sink, batch with
  | Some s, _ :: _ =>
      try_except
        (insert_batch dumps E s batch;;
         flush_backlog loads E s;;
         mret [])
        (fun _ => mret batch)
  | _, _ => mret batch
  end.

(** The label (and probabilities) [maybe_predict] settles on, if any. *)
Definition choose_prediction (t : float)
  : M state (option (string * option (list float))) :=
  st ← get;
  wrist ← of_option KeyError (buffer st !! "wrist");
  ankle ← of_option KeyError (buffer st !! "ankle");
  let enough_wrist := (window_size <=? Z.of_nat (length wrist))%Z in
  let enough_ankle := (window_size <=? Z.of_nat (length ankle))%Z in
  if enough_wrist || enough_ankle then
    let w0 : window := ∅ in
    let w1 := if enough_wrist
              then <["wrist" := py_last window_size wrist]> w0 else w0 in
    let w2 := if enough_ankle
              then <["ankle" := py_last window_size ankle]> w1 else w1 in
    r ← of_option ModelError
          (predict_window np_mean np_std_ddof1 np_min np_max engine w2);
    mret (Some r)
  else
    tw ← of_option KeyError (last_raw_ts st !! "wrist");
    ta ← of_option KeyError (last_raw_ts st !! "ankle");
    let raw_stale := 1 <=? t - py_max tw ta in
    let have_wrist := bool_decide (is_Some (ws_std (last_stats_wrist st))) in
    let have_ankle := bool_decide (is_Some (as_intensity (last_stats_ankle st))) in
    if raw_stale && (have_wrist || have_ankle) then
      let std_w := or_zero (ws_std (last_stats_wrist st)) in
      let std_a := or_zero (as_intensity (last_stats_ankle st)) in
      mret (Some (synthetic_label (py_max std_w std_a), None))
    else mret None.

Definition maybe_predict : M state unit :=
  t ← now;
  st ← get;
  (if 1 <=? t - _last_dbg st then modify (with_last_dbg t) else mret tt);;
  choice ← choose_prediction t;
  match choice with
  | None => mret tt
  | Some (label, proba) =>
      ts ← utc_stamp;
      modify (fun st =>
        with_pred_batch (pred_batch st ++ [PredictionDoc ts label proba]) st);;
      match PRED_UPLOAD_EAGER cfg, pred_sink cfg with
      | true, Some sink =>
          st ← get;
          try_except
            (on_world (insert_batch dumps E sink (pred_batch st));;
             on_world (flush_backlog loads E sink);;
             modify (with_pred_batch []))
            (fun _ => mret tt)
      | _, _ => mret tt
      end
  end.

(** [maybe_upload]; the interval is compared as a float, which is exact
    for any interval below [2^53] seconds. *)
Definition maybe_upload : M state unit :=
  t ← now;
  st ← get;
  if t - last_upload st <? float_of_small_int (BATCH_UPLOAD_SECONDS cfg)
  then mret tt
  else
    sb ← on_world (flush_sink (sensor_sink cfg) (sensor_batch st));
    modify (with_sensor_batch sb);;
    st ← get;
    pb ← on_world (flush_sink (pred_sink cfg) (pred_batch st));
    modify (with_pred_batch pb);;
    t' ← now;
    modify (with_last_upload t').

(** The ["label"] branch of the consumer, for non-empty text [s]. *)
Definition on_label (node s : string) : M state unit :=
  t ← now;
  if String.prefix "SPD" s then
    match _extract_floats s with
    | acc_mag :: intensity :: _ =>
        modify (with_ankle_stats (AnkleStats (Some acc_mag) (Some intensity) t));;
        ts ← utc_stamp;
        modify (fun st =>
          with_sensor_batch
            (sensor_batch st ++ [SpeedDoc ts node acc_mag intensity s]) st)
    | _ => mret tt
    end
  else
    let label := label_field s in
    let nums := _extract_floats s in
    let mean := nums !! 0%nat in
    let std := nums !! 1%nat in
    (if bool_decide (is_Some mean) || bool_decide (is_Some std)
     then modify (with_wrist_stats (WristStats mean std t)) else mret tt);;
    ts ← utc_stamp;
    modify (fun st =>
      with_sensor_batch (sensor_batch st ++ [LabelDoc ts node label s mean std]) st).

(** One turn of the [while True] loop of [consumer]: [None] is the
    50 ms timeout of [q.get()]. *)
Definition consumer_step (ev : option packet) : M state unit :=
  match ev with
  | None => maybe_predict;; maybe_upload
  | Some (Packet node stream payload) =>
      if String.eqb stream "raw" then
        if negb (length payload =? 12)%nat then mret tt
        else
          fields ← of_option StructError (unpack_6h payload);
          match fields with
          | [ax; ay; az; gx; gy; gz] =>
              add_sample
                (RawSample (Some node)
                   (VSeq (decode_axis ax) (decode_axis ay) (decode_axis az))
                   (VSeq (decode_axis gx) (decode_axis gy) (decode_axis gz)));;
              t ← now;
              modify (fun st => with_last_raw_ts (<[node := t]> (last_raw_ts st)) st);;
              maybe_predict;; maybe_upload
          | _ => raise ValueError
          end
      else if String.eqb stream "label" then
        let s := _sanitize_label_bytes payload in
        if String.eqb s "" then mret tt
        else on_label node s;; maybe_predict;; maybe_upload
      else maybe_predict;; maybe_upload
  end.

(** The consumer on the packets (and timeouts) it dequeues, in order; an
    exception ends the task. *)
Definition consumer (evs : list (option packet)) : M state unit :=
  for_each evs consumer_step.

#[local] Arguments insert_batch : simpl never.
#[local] Arguments flush_backlog : simpl never.
#[local] Arguments flush_sink : simpl never.
#[local] Arguments time_time : simpl never.

(** *** The consumer and malformed raw packets *)

(** C8. A raw notification whose payload is not 12 bytes long is not
    even queued by [_cb_raw]; should such a packet be on the queue, the
    consumer's turn on it returns without raising and leaves the whole
    state as it was (buffers, batches, last-raw timestamps, the sinks'
    world), so the consumer run on a packet sequence with the malformed
    packet in it ends exactly as the run without it. *)
Theorem malformed_raw_dropped (nd : string) (data : list byte) (st : state) :
  length data <> 12%nat ->
  (forall q, _cb_raw nd data q = q) /\
  consumer_step (Some (Packet nd "raw" data)) st = (Ok tt, st) /\
  (forall before after,
     consumer (before ++ Some (Packet nd "raw" data) :: after) st
     = consumer (before ++ after) st).
Proof.
  intros Hlen.
  assert (Hneq : (length data =? 12)%nat = false) by now apply Nat.eqb_neq.
  assert (Hstep : forall st', consumer_step (Some (Packet nd "raw" data)) st' = (Ok tt, st')).
  { intros st'. unfold consumer_step. cbn. rewrite Hneq. reflexivity. }
  split; [|split].
  - intros q. unfold _cb_raw. rewrite Hneq, orb_true_r. reflexivity.
  - apply Hstep.
  - intros before after. unfold consumer.
    rewrite !for_each_app. unfold mbind, M_bind.
    destruct (for_each before consumer_step st) as [[[]|e] st1]; [|reflexivity].
    cbn [for_each]. unfold mbind, M_bind. rewrite Hstep. reflexivity.
Qed.

(** *** The buffers and their retention cap *)

(** What [add_sample] appends for [s]. *)
Definition normalized (s : raw_sample) : sample :=
  Sample (_to_vec3_dict (sample_accel s)) (_to_vec3_dict (sample_gyro s)).

(** The buffer of a limb after [norm] arrived. *)
Definition retained (buf : list sample) (norm : sample) : list sample :=
  if (window_size * 3 <? Z.of_nat (length (buf ++ [norm])))%Z
  then py_last (window_size * 3) (buf ++ [norm]) else buf ++ [norm].

Definition buffers_bounded (st : state) : Prop :=
  forall d l, buffer st !! d = Some l ->
    (Z.of_nat (length l) <= 3 * window_size)%Z.

Lemma add_sample_buffer (s : raw_sample) (st : state) :
  exists st', add_sample s st = (Ok tt, st') /\
    buffer st' =
    match buffer st !! default "wrist" (device s) with
    | None => buffer st
    | Some buf => <[default "wrist" (device s) := retained buf (normalized s)]> (buffer st)
    end.
Proof.
  unfold add_sample. unfold mbind at 1, M_bind at 1, get at 1.
  destruct (buffer st !! default "wrist" (device s)) as [buf|] eqn:Hb.
  - unfold mbind, M_bind, now, on_world, zoom, modify, utc_stamp, mret, M_ret.
    cbn -[_to_vec3_dict py_last Z.mul]. 
    destruct (SAVE_RAW cfg =? 0)%Z.
    + eexists. split; reflexivity.
    + cbn -[_to_vec3_dict py_last Z.mul].
      destruct (_get_vec3 (_to_vec3_dict (sample_accel s))) as [[ax ay] az].
      destruct (_get_vec3 (_to_vec3_dict (sample_gyro s))) as [[gx gy] gz].
      eexists. split; reflexivity.
  - exists st. split; reflexivity.
Qed.

Lemma py_last_suffix {A} (k : Z) (l : list A) :
  (0 < k)%Z ->
  (Z.of_nat (length (py_last k l)) <= k)%Z /\
  exists dropped, l = dropped ++ py_last k l /\
    (dropped <> [] -> Z.of_nat (length (py_last k l)) = k).
Proof.
  intros Hk. unfold py_last.
  assert (Ek : (0 <? k)%Z = true) by now apply Z.ltb_lt.
  rewrite Ek. rewrite length_drop. split; [lia|].
  exists (take (length l - Z.to_nat k) l). split.
  - now rewrite take_drop.
  - intros Hne. destruct (decide (length l - Z.to_nat k = 0)%nat) as [E0|E0].
    + rewrite E0 in Hne. now destruct l.
    + lia.
Qed.

Lemma retained_spec (buf : list sample) (norm : sample) :
  (1 <= window_size)%Z ->
  (Z.of_nat (length (retained buf norm)) <= 3 * window_size)%Z /\
  exists dropped, buf ++ [norm] = dropped ++ retained buf norm /\
    (dropped <> [] -> Z.of_nat (length (retained buf norm)) = (3 * window_size)%Z).
Proof.
  intros Hw. unfold retained.
  destruct (window_size * 3 <? _)%Z eqn:Ecap.
  - destruct (py_last_suffix (window_size * 3) (buf ++ [norm]) ltac:(lia))
      as (Hlen & dropped & Heq & Hfull).
    split; [lia|]. exists dropped. split; [exact Heq|].
    intros Hne. rewrite (Hfull Hne). lia.
  - apply Z.ltb_ge in Ecap. split; [lia|]. exists []. split; [reflexivity|congruence].
Qed.

(** C7. With a window size of at least 1, [add_sample] returns and
    keeps every buffer within the cap of three windows; only the buffer
    of the sample's limb changes, and it becomes what is left of the old
    buffer followed by the new sample once the oldest entries are
    dropped (entries are dropped only down to the cap, and the rest keeps
    its order).  So from the initial state every sequence of calls ends
    with all buffers within the cap. *)
Theorem add_sample_retention_cap (Hw : (1 <= window_size)%Z) :
  (forall s st, buffers_bounded st ->
     exists st', add_sample s st = (Ok tt, st') /\ buffers_bounded st' /\
       (forall d, d <> default "wrist" (device s) ->
          buffer st' !! d = buffer st !! d) /\
       (forall old, buffer st !! default "wrist" (device s) = Some old ->
          exists dropped kept,
            buffer st' !! default "wrist" (device s) = Some kept /\
            old ++ [normalized s] = dropped ++ kept /\
            (dropped <> [] -> Z.of_nat (length kept) = (3 * window_size)%Z))) /\
  (forall samples t0 w,
     exists st', for_each samples add_sample (initial_state t0 w) = (Ok tt, st') /\
       buffers_bounded st').
Proof.
  assert (Hone : forall s st, buffers_bounded st ->
     exists st', add_sample s st = (Ok tt, st') /\ buffers_bounded st' /\
       (forall d, d <> default "wrist" (device s) ->
          buffer st' !! d = buffer st !! d) /\
       (forall old, buffer st !! default "wrist" (device s) = Some old ->
          exists dropped kept,
            buffer st' !! default "wrist" (device s) = Some kept /\
            old ++ [normalized s] = dropped ++ kept /\
            (dropped <> [] -> Z.of_nat (length kept) = (3 * window_size)%Z))).
  { intros s st Hb.
    destruct (add_sample_buffer s st) as (st' & Hrun & Hbuf).
    exists st'. split; [exact Hrun|]. unfold buffers_bounded in *.
    destruct (buffer st !! default "wrist" (device s)) as [buf|] eqn:Hl.
    - destruct (retained_spec buf (normalized s) Hw) as (Hlen & dropped & Heq & Hfull).
      rewrite Hbuf. split; [|split].
      + intros d l Hd. destruct (decide (default "wrist" (device s) = d)) as [<-|Hne].
        * rewrite lookup_insert_eq in Hd. injection Hd as <-. exact Hlen.
        * rewrite lookup_insert_ne in Hd by exact Hne. eapply Hb; eauto.
      + intros d Hne. now rewrite lookup_insert_ne.
      + intros old [= <-]. exists dropped, (retained buf (normalized s)).
        rewrite lookup_insert_eq. auto.
    - rewrite Hbuf. split; [exact Hb|]. split; [reflexivity|]. discriminate. }
  split; [exact Hone|].
  intros samples t0 w.
  assert (Hinit : buffers_bounded (initial_state t0 w)).
  { intros d l Hd. unfold initial_state in Hd. cbn in Hd.
    apply lookup_insert_Some in Hd as [[_ <-]|[_ Hd]]; [cbn; lia|].
    apply lookup_singleton_Some in Hd as [_ <-]. cbn. lia. }
  revert Hinit. generalize (initial_state t0 w) as st.
  induction samples as [|s samples IH]; intros st Hb.
  - exists st. split; [reflexivity | exact Hb].
  - destruct (Hone s st Hb) as (st1 & Hrun & Hb1 & _).
    destruct (IH st1 Hb1) as (st' & Hrest & Hb').
    exists st'. split; [|exact Hb'].
    cbn [for_each]. unfold mbind, M_bind. rewrite Hrun. exact Hrest.
Qed.

(** *** Uploads *)

Lemma flush_sink_nothing (sink : option MongoSink) (w : world doc) :
  flush_sink sink [] w = (Ok [], w).
Proof. unfold flush_sink. destruct sink; reflexivity. Qed.

(** The batch went out of [insert_batch] without an exception (sent, or
    written to the backlog): the backlog is swept and the batch dropped. *)
Lemma flush_sink_cleared (s : MongoSink) (batch : list doc) (w w1 : world doc) :
  batch <> [] -> insert_batch dumps E s batch w = (Ok tt, w1) ->
  exists w', flush_sink (Some s) batch w = (Ok [], w') /\
    flush_backlog loads E s w1 = (Ok tt, w').
Proof.
  intros Hne Hins.
  destruct (flush_backlog_runs loads E s w1) as (w' & Hfl & _).
  exists w'. split; [|exact Hfl].
  unfold flush_sink. destruct batch as [|d batch]; [congruence|].
  unfold try_except, mbind, M_bind. rewrite Hins, Hfl. reflexivity.
Qed.

(** [insert_batch] raised: the handler of [maybe_upload] keeps the batch. *)
Lemma flush_sink_kept (s : MongoSink) (batch : list doc) (w w1 : world doc) (e : exn) :
  insert_batch dumps E s batch w = (Raise e, w1) ->
  flush_sink (Some s) batch w = (Ok batch, w1).
Proof.
  intros Hins. unfold flush_sink.
  destruct batch as [|d batch]; [discriminate|].
  unfold try_except, mbind, M_bind. rewrite Hins. reflexivity.
Qed.

(** [maybe_upload] once the interval has passed: the sensor sink's part,
    then the prediction sink's part on the world the first left, then
    the timer. *)
Lemma maybe_upload_runs (st : state) (sb pb : list doc) (w1 w2 : world doc) :
  (clock E (clock_reads (outside st)) - last_upload st
     <? float_of_small_int (BATCH_UPLOAD_SECONDS cfg)) = false ->
  flush_sink (sensor_sink cfg) (sensor_batch st) (time_time E (outside st)).2
    = (Ok sb, w1) ->
  flush_sink (pred_sink cfg) (pred_batch st) w1 = (Ok pb, w2) ->
  exists st', maybe_upload st = (Ok tt, st') /\
    sensor_batch st' = sb /\ pred_batch st' = pb /\
    buffer st' = buffer st /\
    last_upload st' = clock E (clock_reads w2) /\
    outside st' = (time_time E w2).2.
Proof.
  intros Hgate Hs Hp.
  unfold maybe_upload.
  unfold mbind, M_bind, now, on_world, zoom, get, modify, mret, M_ret.
  unfold time_time at 1. cbn -[float_of_small_int sub ltb flush_sink].
  rewrite Hgate.
  unfold time_time in Hs at 1. cbn in Hs.
  unfold with_outside at 1 2.
  cbn [outside sensor_batch pred_batch buffer last_upload].
  rewrite Hs.
  unfold with_outside, with_sensor_batch.
  cbn [outside sensor_batch pred_batch buffer last_upload].
  rewrite Hp. unfold time_time.
  cbn [outside sensor_batch pred_batch buffer last_upload].
  eexists. split; [reflexivity|]. cbn. repeat split.
Qed.

(** What a flush of the non-empty [batch] through [s] does, by what the
    store and the disk answer. *)
Lemma flush_sink_cases (s : MongoSink) (batch : list doc) (w : world doc) :
  batch <> [] ->
  exists kept w', flush_sink (Some s) batch w = (Ok kept, w') /\
    match remote E (remote_calls w) with
    | Inserted =>
        kept = [] /\ exists pre post, coll w' (col s) = pre ++ batch ++ post
    | InsertFailed landed =>
        match py_int (clock E (clock_reads w)) with
        | Some stamp =>
            if disk_open E (disk_opens w) then
              kept = [] /\
              let p := (backlog_dir s, stamp) in
              let lines := default [] (files w !! p) ++ map dumps batch in
              files w' !! p = Some lines \/
              (files w' !! p = None /\ delivered loads s lines w')
            else kept = batch
        | None => kept = batch
        end
    end.
Proof.
  intros Hne.
  destruct (remote E (remote_calls w)) as [|landed] eqn:Hrem.
  - destruct (insert_batch_ok dumps E s batch w Hne Hrem)
      as (w1 & Hins & _ & _ & Hcoll).
    destruct (flush_sink_cleared s batch w w1 Hne Hins) as (w' & Hfs & Hfl).
    destruct (flush_backlog_runs loads E s w1) as (w2 & Hfl2 & Hg & _).
    rewrite Hfl in Hfl2. injection Hfl2 as <-.
    exists [], w'. split; [exact Hfs|]. split; [reflexivity|].
    destruct (Hg (col s)) as [more Hmore].
    exists (coll w (col s)), more. rewrite Hmore, Hcoll. now rewrite <- app_assoc.
  - destruct (py_int (clock E (clock_reads w))) as [stamp|] eqn:Hstamp;
      [destruct (disk_open E (disk_opens w)) eqn:Hdisk|].
    + destruct (insert_batch_backlogged dumps E s batch w landed stamp
                  Hne Hrem Hstamp Hdisk) as (w1 & Hins & _ & Hfiles & _).
      destruct (flush_sink_cleared s batch w w1 Hne Hins) as (w' & Hfs & Hfl).
      destruct (flush_backlog_runs loads E s w1) as (w2 & Hfl2 & _ & Hkeep).
      rewrite Hfl in Hfl2. injection Hfl2 as <-.
      exists [], w'. split; [exact Hfs|]. split; [reflexivity|].
      cbv zeta. apply Hkeep. rewrite Hfiles. apply lookup_insert_eq.
    + destruct (insert_batch_raises dumps E s batch w landed Hne Hrem
                  (or_intror Hdisk)) as (e & w1 & Hins & _).
      exists batch, w1. split; [now apply (flush_sink_kept s batch w w1 e)|reflexivity].
    + destruct (insert_batch_raises dumps E s batch w landed Hne Hrem
                  (or_introl Hstamp)) as (e & w1 & Hins & _).
      exists batch, w1. split; [now apply (flush_sink_kept s batch w w1 e)|reflexivity].
Qed.

Lemma flush_sink_returns (sink : option MongoSink) (batch : list doc) (w : world doc) :
  exists kept w', flush_sink sink batch w = (Ok kept, w').
Proof.
  destruct sink as [s|]; [|exists batch, w; now destruct batch].
  destruct batch as [|d batch]; [exists [], w; reflexivity|].
  destruct (flush_sink_cases s (d :: batch) w ltac:(discriminate))
    as (kept & w' & Hfs & _). eauto.
Qed.

(** C3, amended. When the store refuses a non-empty batch (and the
    backlog write goes through), [insert_batch] appends the batch's
    documents, in order, to the backlog file named after the current
    whole second and touches no other file: if no file of that name was
    there, exactly one file is created and it holds exactly the batch;
    if one was there, no file is created and the batch follows its
    earlier lines.  The flush then leaves the in-memory batch empty, the
    backlog file written (or already replayed in full), and a flush of
    the emptied batch sends and writes nothing. *)
Theorem failed_flush_backlogged (s : MongoSink) (batch : list doc)
    (w : world doc) (landed : list bool) (stamp : Z)
    (Hne : batch <> [])
    (Hrem : remote E (remote_calls w) = InsertFailed landed)
    (Hstamp : py_int (clock E (clock_reads w)) = Some stamp)
    (Hdisk : disk_open E (disk_opens w) = true) :
  let p := (backlog_dir s, stamp) in
  let lines := default [] (files w !! p) ++ map dumps batch in
  (exists w1,
     insert_batch dumps E s batch w = (Ok tt, w1) /\
     files w1 = <[p := lines]> (files w) /\
     (files w !! p = None ->
        lines = map dumps batch /\ size (files w1) = S (size (files w))) /\
     (is_Some (files w !! p) -> size (files w1) = size (files w)) /\
     coll w1 (col s) = coll w (col s) ++ keep_landed landed batch) /\
  (exists w',
     flush_sink (Some s) batch w = (Ok [], w') /\
     (files w' !! p = Some lines \/
      (files w' !! p = None /\ delivered loads s lines w'))) /\
  (forall w'', flush_sink (Some s) [] w'' = (Ok [], w'')).
Proof.
  intros p lines.
  destruct (insert_batch_backlogged dumps E s batch w landed stamp
              Hne Hrem Hstamp Hdisk) as (w1 & Hins & _ & Hfiles & Hcoll).
  fold p in Hfiles. fold lines in Hfiles.
  split; [|split].
  - exists w1. split; [exact Hins|]. split; [exact Hfiles|].
    split; [|split; [|exact Hcoll]].
    + intros Hnone. split.
      * unfold lines. now rewrite Hnone.
      * rewrite Hfiles. now apply map_size_insert_None.
    + intros Hsome. rewrite Hfiles. now apply map_size_insert_Some.
  - destruct (flush_sink_cases s batch w Hne) as (kept & w' & Hfs & Hcase).
    rewrite Hrem, Hstamp, Hdisk in Hcase. destruct Hcase as [-> Hfile].
    exists w'. split; [exact Hfs | exact Hfile].
  - intros w''. apply flush_sink_nothing.
Qed.

(** C5, amended. On a timed flush of a sink with a non-empty batch:
    when the store takes the batch, the in-memory batch is cleared and
    the documents are in the collection; when the store refuses it, the
    batch is written to the backlog file stamped with the current second
    and the in-memory batch is cleared as well; the batch stays in
    memory only when the backlog write itself raises.  [maybe_upload],
    once the interval has passed, does this for the sensor sink and then
    for the prediction sink, and returns. *)
Theorem timed_flush_outcome (s : MongoSink) (batch : list doc) (w : world doc) :
  (batch <> [] ->
   exists kept w', flush_sink (Some s) batch w = (Ok kept, w') /\
     match remote E (remote_calls w) with
     | Inserted =>
         kept = [] /\ exists pre post, coll w' (col s) = pre ++ batch ++ post
     | InsertFailed landed =>
         match py_int (clock E (clock_reads w)) with
         | Some stamp =>
             if disk_open E (disk_opens w) then
               kept = [] /\
               let p := (backlog_dir s, stamp) in
               let lines := default [] (files w !! p) ++ map dumps batch in
               files w' !! p = Some lines \/
               (files w' !! p = None /\ delivered loads s lines w')
             else kept = batch
         | None => kept = batch
         end
     end) /\
  (forall st,
     (clock E (clock_reads (outside st)) - last_upload st
        <? float_of_small_int (BATCH_UPLOAD_SECONDS cfg)) = false ->
     exists sb w1 pb w2 st',
       flush_sink (sensor_sink cfg) (sensor_batch st) (time_time E (outside st)).2
         = (Ok sb, w1) /\
       flush_sink (pred_sink cfg) (pred_batch st) w1 = (Ok pb, w2) /\
       maybe_upload st = (Ok tt, st') /\
       sensor_batch st' = sb /\ pred_batch st' = pb).
Proof.
  split; [apply flush_sink_cases|].
  intros st Hgate.
  destruct (flush_sink_returns (sensor_sink cfg) (sensor_batch st)
              (time_time E (outside st)).2) as (sb & w1 & Hs).
  destruct (flush_sink_returns (pred_sink cfg) (pred_batch st) w1)
    as (pb & w2 & Hp).
  destruct (maybe_upload_runs st sb pb w1 w2 Hgate Hs Hp)
    as (st' & Hrun & Hsb & Hpb & _).
  exists sb, w1, pb, w2, st'. auto.
Qed.

(** *** Sample shapes *)

Lemma dict_of_triple (x y z : float) :
  _get_vec3 (VDict {[ "x" := x; "y" := y; "z" := z ]}) = (x, y, z).
Proof.
  unfold _get_vec3, dict_get.
  rewrite lookup_insert_eq.
  rewrite lookup_insert_ne, lookup_insert_eq by discriminate.
  rewrite !lookup_insert_ne, lookup_singleton_eq by discriminate.
  reflexivity.
Qed.

Lemma _to_vec3_dict_read (v : vec3) : _get_vec3 (_to_vec3_dict v) = _get_vec3 v.
Proof. destruct v as [d|x y z]; cbn [_to_vec3_dict]; apply dict_of_triple. Qed.

(** X1. Normalising a sample as [add_sample] does changes nothing the
    feature extractor reads: [_get_vec3] of a normalised vector is
    [_get_vec3] of the original (dict with missing keys, or sequence),
    normalising twice is normalising once, and so [_feats] of the
    buffered samples is [_feats] of the samples as they arrived. *)
Theorem normalisation_is_transparent :
  (forall v, _get_vec3 (_to_vec3_dict v) = _get_vec3 v /\
             _to_vec3_dict (_to_vec3_dict v) = _to_vec3_dict v) /\
  (forall l : list raw_sample,
     _feats np_mean np_std_ddof1 np_min np_max (map normalized l)
     = _feats np_mean np_std_ddof1 np_min np_max
         (map (fun s => Sample (sample_accel s) (sample_gyro s)) l)).
Proof.
  split.
  - intros v. split; [apply _to_vec3_dict_read|].
    destruct v as [d|x y z]; cbn [_to_vec3_dict]; unfold dict_get.
    + rewrite lookup_insert_eq.
      rewrite lookup_insert_ne, lookup_insert_eq by discriminate.
      rewrite !lookup_insert_ne, lookup_singleton_eq by discriminate.
      reflexivity.
    + rewrite lookup_insert_eq.
      rewrite lookup_insert_ne, lookup_insert_eq by discriminate.
      rewrite !lookup_insert_ne, lookup_singleton_eq by discriminate.
      reflexivity.
  - intros l.
    assert (Ha : map (fun s => _get_vec3 (accel s)) (map normalized l)
                 = map (fun s => _get_vec3 (accel s))
                     (map (fun s => Sample (sample_accel s) (sample_gyro s)) l)).
    { rewrite !map_map. apply map_ext. intros s. apply _to_vec3_dict_read. }
    assert (Hg : map (fun s => _get_vec3 (gyro s)) (map normalized l)
                 = map (fun s => _get_vec3 (gyro s))
                     (map (fun s => Sample (sample_accel s) (sample_gyro s)) l)).
    { rewrite !map_map. apply map_ext. intros s. apply _to_vec3_dict_read. }
    unfold _feats. cbv zeta. rewrite Ha, Hg. reflexivity.
Qed.

(** X6. The synthetic prediction is the fallback model's rule: on a
    feature row whose entries 13 and 33 are [a] and [b], the engine with
    the fallback model answers the label [maybe_predict] synthesises
    from the cached deviations [a] and [b]. *)
Theorem synthetic_label_matches_fallback (row : list float) (a b : float) :
  row !! 13%nat = Some a -> row !! 33%nat = Some b ->
  exists proba,
    classify_features fallback_engine row
      = Some (synthetic_label (py_max a b), proba).
Proof.
  intros Ha Hb. pose proof (fallback_row_eval row a b Ha Hb) as Hrow.
  rewrite (fallback_classify_eval row _ Hrow). unfold synthetic_label.
  destruct (py_max a b <? 0.15); [eexists; reflexivity|].
  destruct (py_max a b <? 0.50); eexists; reflexivity.
Qed.

(** *** [add_sample], [maybe_upload] and the label branch, step by step *)

(** The world after one reading of the clock. *)
Definition ticked (w : world doc) : world doc := (time_time E w).2.

(** X17. [add_sample] for a device that has no buffer returns at once
    and leaves the whole state as it was (not even the clock is read).
    For a buffered device it stamps [last_raw_ts] of that limb with the
    clock reading, never touches the prediction batch, leaves the sensor
    batch alone when [SAVE_RAW] is 0 and otherwise appends exactly one
    raw document carrying the limb and the six normalised values. *)
Theorem add_sample_effects (s : raw_sample) (st : state) :
  let limb := default "wrist" (device s) in
  (buffer st !! limb = None -> add_sample s st = (Ok tt, st)) /\
  (is_Some (buffer st !! limb) ->
   exists st', add_sample s st = (Ok tt, st') /\
     pred_batch st' = pred_batch st /\
     last_raw_ts st' = <[limb := clock E (clock_reads (outside st))]> (last_raw_ts st) /\
     (SAVE_RAW cfg = 0%Z ->
        sensor_batch st' = sensor_batch st /\ outside st' = ticked (outside st)) /\
     (SAVE_RAW cfg <> 0%Z ->
        exists ts ax ay az gx gy gz,
          _get_vec3 (sample_accel s) = (ax, ay, az) /\
          _get_vec3 (sample_gyro s) = (gx, gy, gz) /\
          sensor_batch st' =
            sensor_batch st ++ [RawDoc ts limb [ax; ay; az] [gx; gy; gz]])).
Proof.
  cbv zeta. unfold add_sample. split.
  - intros Hn. unfold mbind at 1, M_bind at 1, get at 1. now rewrite Hn.
  - intros [buf Hb]. unfold mbind at 1, M_bind at 1, get at 1. rewrite Hb.
    unfold mbind, M_bind, now, on_world, zoom, modify, utc_stamp, mret, M_ret,
      time_time.
    cbn -[_to_vec3_dict py_last Z.mul].
    destruct (SAVE_RAW cfg =? 0)%Z eqn:Esave.
    + apply Z.eqb_eq in Esave.
      eexists. split; [reflexivity|]. cbn.
      split; [reflexivity|]. split; [reflexivity|].
      split; [intros _; split; reflexivity | intros Hne; contradiction].
    + apply Z.eqb_neq in Esave.
      cbn -[_to_vec3_dict py_last Z.mul].
      rewrite !_to_vec3_dict_read.
      destruct (_get_vec3 (sample_accel s)) as [[ax ay] az].
      destruct (_get_vec3 (sample_gyro s)) as [[gx gy] gz].
      eexists. split; [reflexivity|]. cbn.
      split; [reflexivity|]. split; [reflexivity|].
      split; [intros He; contradiction|].
      intros _. eexists _, ax, ay, az, gx, gy, gz. repeat split.
Qed.

Lemma maybe_upload_waits (st : state) :
  (clock E (clock_reads (outside st)) - last_upload st
     <? float_of_small_int (BATCH_UPLOAD_SECONDS cfg)) = true ->
  maybe_upload st = (Ok tt, with_outside (ticked (outside st)) st).
Proof.
  intros Hgate. unfold maybe_upload.
  unfold mbind, M_bind, now, on_world, zoom, get, modify, mret, M_ret.
  unfold time_time at 1. cbn -[float_of_small_int sub ltb flush_sink].
  rewrite Hgate. reflexivity.
Qed.

(** X16. [maybe_upload] never raises, whatever the store and the disk
    do, and never touches the buffers.  Before the interval has passed
    it only reads the clock: batches, timer and store are as they were.
    Once it has passed, the timer is set to a clock reading taken after
    both sinks had their turn, whether they failed or not; and a sink
    that is not configured leaves its batch as it is. *)
Theorem maybe_upload_never_raises (st : state) :
  exists st', maybe_upload st = (Ok tt, st') /\
    buffer st' = buffer st /\
    ((clock E (clock_reads (outside st)) - last_upload st
        <? float_of_small_int (BATCH_UPLOAD_SECONDS cfg)) = true ->
     st' = with_outside (ticked (outside st)) st) /\
    ((clock E (clock_reads (outside st)) - last_upload st
        <? float_of_small_int (BATCH_UPLOAD_SECONDS cfg)) = false ->
     (exists w2, last_upload st' = clock E (clock_reads w2) /\
                 outside st' = ticked w2) /\
     (sensor_sink cfg = None -> sensor_batch st' = sensor_batch st) /\
     (pred_sink cfg = None -> pred_batch st' = pred_batch st)).
Proof.
  destruct (clock E (clock_reads (outside st)) - last_upload st
              <? float_of_small_int (BATCH_UPLOAD_SECONDS cfg)) eqn:Hgate.
  - exists (with_outside (ticked (outside st)) st).
    split; [now apply maybe_upload_waits|]. split; [reflexivity|].
    split; [reflexivity | discriminate].
  - destruct (flush_sink_returns (sensor_sink cfg) (sensor_batch st)
                (time_time E (outside st)).2) as (sb & w1 & Hs).
    destruct (flush_sink_returns (pred_sink cfg) (pred_batch st) w1)
      as (pb & w2 & Hp).
    destruct (maybe_upload_runs st sb pb w1 w2 Hgate Hs Hp)
      as (st' & Hrun & Hsb & Hpb & Hbuf & Hlast & Hout).
    exists st'. split; [exact Hrun|]. split; [exact Hbuf|].
    split; [discriminate|]. intros _.
    split; [exists w2; split; [exact Hlast | exact Hout]|].
    split.
    + intros Hnone. rewrite Hnone in Hs. unfold flush_sink in Hs.
      cbn in Hs. injection Hs as <- _. exact Hsb.
    + intros Hnone. rewrite Hnone in Hp. unfold flush_sink in Hp.
      cbn in Hp. injection Hp as <- _. exact Hpb.
Qed.

(** *** What each step of the consumer leaves alone *)

(** [m] leaves the component [proj] of the state as it was, whether it
    returns or raises. *)
Definition keeps {A B} (proj : state -> B) (m : M state A) : Prop :=
  forall st, proj (m st).2 = proj st.

Lemma keeps_ret {A B} (proj : state -> B) (a : A) : keeps proj (mret a).
Proof. now intros st. Qed.

Lemma keeps_raise {A B} (proj : state -> B) (e : exn) :
  keeps proj (raise e : M state A).
Proof. now intros st. Qed.

Lemma keeps_get {B} (proj : state -> B) : keeps proj get.
Proof. now intros st. Qed.

Lemma keeps_bind {A C B} (proj : state -> B) (m : M state A) (f : A -> M state C) :
  keeps proj m -> (forall a, keeps proj (f a)) -> keeps proj (m ≫= f).
Proof.
  intros Hm Hf st. unfold mbind, M_bind. specialize (Hm st).
  destruct (m st) as [[a|e] st1]; cbn in *; [|exact Hm].
  now rewrite Hf.
Qed.

Lemma keeps_try {A B} (proj : state -> B) (m : M state A) (h : exn -> M state A) :
  keeps proj m -> (forall e, keeps proj (h e)) -> keeps proj (try_except m h).
Proof.
  intros Hm Hh st. unfold try_except. specialize (Hm st).
  destruct (m st) as [[a|e] st1]; cbn in *; [exact Hm|].
  now rewrite Hh.
Qed.

Lemma keeps_of_option {A B} (proj : state -> B) (e : exn) (o : option A) :
  keeps proj (of_option e o).
Proof. destruct o; now intros st. Qed.

Lemma keeps_modify {B} (proj : state -> B) (f : state -> state) :
  (forall st, proj (f st) = proj st) -> keeps proj (modify f).
Proof. intros Hf st. apply Hf. Qed.

Lemma keeps_on_world {A B} (proj : state -> B) (m : M (world doc) A) :
  (forall w st, proj (with_outside w st) = proj st) -> keeps proj (on_world m).
Proof.
  intros Hp st. unfold on_world, zoom.
  destruct (m (outside st)) as [r w]. apply Hp.
Qed.

Lemma keeps_for_each {A B} (proj : state -> B) (l : list A) (body : A -> M state unit) :
  (forall x, keeps proj (body x)) -> keeps proj (for_each l body).
Proof.
  intros Hb. induction l as [|x l IH]; [apply keeps_ret|].
  cbn [for_each]. apply keeps_bind; [apply Hb | intros _; exact IH].
Qed.

(** Breaks a computation down to its primitive steps. *)
Ltac keeps_steps :=
  repeat first
    [ apply keeps_ret
    | apply keeps_raise
    | apply keeps_get
    | apply keeps_of_option
    | apply keeps_on_world; [reflexivity]
    | apply keeps_modify; [reflexivity]
    | apply keeps_bind; [|intros ?]
    | apply keeps_try; [|intros ?]
    | match goal with
      | |- keeps _ (match ?x with _ => _ end) => destruct x
      | |- keeps _ (let '(_, _) := ?x in _) => destruct x
      end ].

Lemma on_label_keeps_buffers (nd s : string) :
  keeps buffer (on_label nd s) /\ keeps pred_batch (on_label nd s) /\
  keeps last_raw_ts (on_label nd s).
Proof.
  unfold on_label, now, utc_stamp. repeat split; keeps_steps.
Qed.

Lemma maybe_predict_keeps_buffers :
  keeps buffer maybe_predict /\ keeps sensor_batch maybe_predict /\
  keeps last_raw_ts maybe_predict.
Proof.
  unfold maybe_predict, choose_prediction, now, utc_stamp.
  repeat split; keeps_steps.
Qed.

Lemma maybe_upload_keeps_buffers :
  keeps buffer maybe_upload /\ keeps last_raw_ts maybe_upload.
Proof.
  unfold maybe_upload, now. split; keeps_steps.
Qed.

Lemma tick_keeps_buffers :
  keeps buffer (maybe_predict;; maybe_upload) /\
  keeps last_raw_ts (maybe_predict;; maybe_upload).
Proof.
  split; (apply keeps_bind; [apply maybe_predict_keeps_buffers
                            | intros _; apply maybe_upload_keeps_buffers]).
Qed.

(** X19. Only raw packets reach the sample buffers: a timeout, a label
    packet or a packet of any other stream leaves every buffer and every
    last-raw timestamp as it was, whatever else that turn of the
    consumer does (and even if it ends in an exception). *)
Theorem only_raw_packets_reach_buffers (ev : option packet) (st : state) :
  (forall p, ev = Some p -> stream p <> "raw") ->
  buffer (consumer_step ev st).2 = buffer st /\
  last_raw_ts (consumer_step ev st).2 = last_raw_ts st.
Proof.
  intros Hnot.
  assert (Hk : keeps buffer (consumer_step ev) /\ keeps last_raw_ts (consumer_step ev)).
  { destruct ev as [[nd str pl]|]; cbn [consumer_step];
      [|apply tick_keeps_buffers].
    assert (Hraw : String.eqb str "raw" = false)
      by (apply String.eqb_neq; exact (Hnot _ eq_refl)).
    rewrite Hraw.
    destruct (String.eqb str "label"); [|apply tick_keeps_buffers].
    destruct (String.eqb (_sanitize_label_bytes pl) "");
      [split; apply keeps_ret|].
    split; (apply keeps_bind; [apply on_label_keeps_buffers|intros _]);
      apply tick_keeps_buffers. }
  split; apply Hk.
Qed.

(** X21. A raw packet of 12 bytes from a buffered node always decodes,
    and its sample reaches that node's buffer: after the consumer's turn
    (however prediction and upload end) the buffer is the old one with
    the decoded, normalised sample appended and cut to the cap, and the
    other buffers are untouched. *)
Theorem raw_packet_reaches_buffer (nd : string) (pl : list byte)
    (st : state) (buf : list sample) :
  length pl = 12%nat -> buffer st !! nd = Some buf ->
  exists ax ay az gx gy gz,
    unpack_6h pl = Some [ax; ay; az; gx; gy; gz] /\
    buffer (consumer_step (Some (Packet nd "raw" pl)) st).2
    = <[nd := retained buf
                (normalized
                   (RawSample (Some nd)
                      (VSeq (decode_axis ax) (decode_axis ay) (decode_axis az))
                      (VSeq (decode_axis gx) (decode_axis gy) (decode_axis gz))))]>
        (buffer st).
Proof.
  intros Hlen Hbuf.
  destruct (unpack_hs_even 6 pl Hlen) as (ns & Hns & Hl & _ & _).
  destruct ns as [|ax [|ay [|az [|gx [|gy [|gz [|? ?]]]]]]]; try discriminate.
  exists ax, ay, az, gx, gy, gz.
  assert (Hun : unpack_6h pl = Some [ax; ay; az; gx; gy; gz])
    by (unfold unpack_6h; now rewrite Hlen).
  split; [exact Hun|].
  set (smp := RawSample (Some nd)
                (VSeq (decode_axis ax) (decode_axis ay) (decode_axis az))
                (VSeq (decode_axis gx) (decode_axis gy) (decode_axis gz))).
  destruct (add_sample_buffer smp st) as (st1 & Hrun & Hb1).
  cbn [device smp default from_option id] in Hb1. rewrite Hbuf in Hb1.
  unfold consumer_step. cbn [String.eqb Ascii.eqb Bool.eqb andb].
  rewrite Hlen. cbn [Nat.eqb negb]. rewrite Hun.
  unfold mbind at 1, M_bind at 1, of_option at 1, mret at 1, M_ret at 1.
  fold smp. unfold mbind at 1, M_bind at 1. rewrite Hrun.
  rewrite <- Hb1.
  assert (Hk : keeps buffer
    (now ≫= (fun t => modify (fun st0 => with_last_raw_ts (<[nd := t]> (last_raw_ts st0)) st0)
       ≫= (fun _ => maybe_predict ≫= (fun _ => maybe_upload))))).
  { unfold now. apply keeps_bind; [apply keeps_on_world; reflexivity|intros t].
    apply keeps_bind; [apply keeps_modify; reflexivity|intros _].
    apply tick_keeps_buffers. }
  apply Hk.
Qed.

(** X20. The path of [maybe_predict] without a full window (eager
    upload off): with no cached label statistics nothing is queued and
    the prediction batch is as it was; with a cached statistic and raw
    data stale for a second or more, exactly one prediction document is
    queued, labelled by the three-way threshold on the greater cached
    deviation, and it carries no probabilities. *)
Theorem maybe_predict_without_window (st : state) (bw ba : list sample)
    (tw ta : float) :
  PRED_UPLOAD_EAGER cfg = false ->
  buffer st !! "wrist" = Some bw -> buffer st !! "ankle" = Some ba ->
  (Z.of_nat (length bw) < window_size)%Z ->
  (Z.of_nat (length ba) < window_size)%Z ->
  last_raw_ts st !! "wrist" = Some tw -> last_raw_ts st !! "ankle" = Some ta ->
  let t := clock E (clock_reads (outside st)) in
  let cached := bool_decide (is_Some (ws_std (last_stats_wrist st)))
                || bool_decide (is_Some (as_intensity (last_stats_ankle st))) in
  exists st', maybe_predict st = (Ok tt, st') /\
    if (1 <=? t - py_max tw ta) && cached then
      exists ts,
        pred_batch st' = pred_batch st ++
          [PredictionDoc ts
             (synthetic_label
                (py_max (or_zero (ws_std (last_stats_wrist st)))
                        (or_zero (as_intensity (last_stats_ankle st)))))
             None]
    else pred_batch st' = pred_batch st.
Proof.
  intros Heager Hbw Hba Hlw Hla Htw Hta t cached.
  apply Z.ltb_lt in Hlw, Hla. rewrite Z.ltb_antisym in Hlw, Hla.
  apply negb_true_iff in Hlw, Hla.
  unfold maybe_predict.
  unfold mbind at 1, M_bind at 1, now, on_world, zoom, time_time.
  cbn [outside fst snd]. fold t.
  unfold mbind at 1, M_bind at 1, get at 1.
  set (st0 := with_outside _ st).
  assert (Hdbg : forall b : bool, exists st1,
     (if b then modify (with_last_dbg t) else mret tt) st0 = (Ok tt, st1) /\
     buffer st1 = buffer st /\ last_raw_ts st1 = last_raw_ts st /\
     last_stats_wrist st1 = last_stats_wrist st /\
     last_stats_ankle st1 = last_stats_ankle st /\
     pred_batch st1 = pred_batch st).
  { intros [|]; eexists; (split; [reflexivity|]); repeat split. }
  destruct (Hdbg (1 <=? t - _last_dbg st0)) as (st1 & Hrun1 & Hb & Hr & Hsw & Hsa & Hpb).
  unfold mbind at 1, M_bind at 1. cbn [_last_dbg st0 with_outside] in Hrun1 |- *.
  rewrite Hrun1.
  unfold mbind at 1, M_bind at 1.
  assert (Hch : choose_prediction t st1 =
    (Ok (if (1 <=? t - py_max tw ta) && cached
         then Some (synthetic_label
                      (py_max (or_zero (ws_std (last_stats_wrist st)))
                              (or_zero (as_intensity (last_stats_ankle st)))),
                    None)
         else None), st1)).
  { unfold choose_prediction.
    unfold mbind, M_bind, get, of_option, mret, M_ret.
    rewrite Hb, Hbw, Hba, Hlw, Hla, Hr, Htw, Hta, Hsw, Hsa. cbn [orb].
    fold cached. destruct ((1 <=? t - py_max tw ta) && cached); reflexivity. }
  rewrite Hch.
  destruct ((1 <=? t - py_max tw ta) && cached).
  - unfold utc_stamp, now, on_world, zoom, time_time, mbind, M_bind, modify,
      mret, M_ret. cbn. rewrite Heager. cbn.
    eexists. split; [reflexivity|]. cbn. rewrite Hpb. eauto.
  - eexists. split; [reflexivity | exact Hpb].
Qed.

(** *** Label text *)

Lemma lstrip_cons (a : ascii) (r : list ascii) :
  lstrip (a :: r) = if Ascii.eqb a " "%char then lstrip r else a :: r.
Proof.
  destruct a as [[|] [|] [|] [|] [|] [|] [|] [|]]; reflexivity.
Qed.

Lemma lstrip_spec (l : list ascii) :
  (exists pre, l = pre ++ lstrip l) /\ (forall r, lstrip l <> " "%char :: r).
Proof.
  induction l as [|a l [[pre IH1] IH2]].
  - split; [now exists []|]. intros r. discriminate.
  - rewrite lstrip_cons. destruct (Ascii.eqb a " "%char) eqn:Ea.
    + split; [|exact IH2]. exists (a :: pre). cbn. now rewrite <- IH1.
    + split; [now exists []|]. intros r [= -> _].
      now rewrite Ascii.eqb_refl in Ea.
Qed.

Lemma strip_spec (l : list ascii) :
  (exists pre post, l = pre ++ strip l ++ post) /\
  (forall r, strip l <> " "%char :: r) /\
  (forall r, strip l <> r ++ [" "%char]).
Proof.
  unfold strip.
  destruct (lstrip_spec l) as [[pre Hpre] Hhead].
  destruct (lstrip_spec (rev (lstrip l))) as [[pre2 Hpre2] Hhead2].
  set (C := lstrip (rev (lstrip l))) in *.
  assert (HA : lstrip l = rev C ++ rev pre2).
  { rewrite <- (rev_involutive (lstrip l)), Hpre2. apply rev_app_distr. }
  split; [|split].
  - exists pre, (rev pre2). now rewrite <- HA.
  - intros r Hr. rewrite Hr in HA. cbn in HA. now apply Hhead in HA.
  - intros r Hr. apply (Hhead2 (rev r)).
    rewrite <- (rev_involutive C), Hr, rev_app_distr. reflexivity.
Qed.

Lemma no_printable_filter (b : list byte) :
  Forall (fun c => printable c = false) b ->
  filter (fun c => printable c = true) b = [].
Proof.
  induction 1 as [|c b Hc _ IH]; [reflexivity|].
  rewrite filter_cons_False by congruence. exact IH.
Qed.

(** X18. The text [_sanitize_label_bytes] returns is clean: each of its
    characters is a printable byte (32 to 126) of the payload, it
    neither starts nor ends with a space, and a payload without any
    printable byte (NUL padding, CR, LF, bytes above 126) gives the
    empty text, which the consumer drops. *)
Theorem sanitized_label_is_clean (b : list byte) :
  let l := String.list_ascii_of_string (_sanitize_label_bytes b) in
  (forall a, a ∈ l ->
     exists c, c ∈ b /\ printable c = true /\ a = ascii_of_byte c) /\
  (forall r, l <> " "%char :: r) /\
  (forall r, l <> r ++ [" "%char]) /\
  (Forall (fun c => printable c = false) b -> _sanitize_label_bytes b = "").
Proof.
  cbv zeta. unfold _sanitize_label_bytes.
  rewrite String.list_ascii_of_string_of_list_ascii.
  set (chars := map ascii_of_byte (filter (fun c => printable c = true) b)).
  destruct (strip_spec chars) as ((pre & post & Hsub) & Hhead & Hlast).
  split; [|split; [exact Hhead|split; [exact Hlast|]]].
  - intros a Ha.
    assert (Hin : a ∈ chars).
    { rewrite Hsub. apply elem_of_app. right. apply elem_of_app. now left. }
    apply list_elem_of_fmap in Hin as (c & -> & Hc).
    apply list_elem_of_filter in Hc as [Hp Hc]. eauto.
  - intros Hall. unfold chars. now rewrite (no_printable_filter b Hall).
Qed.

End Pipeline.

(** *** A store that is down: concrete runs *)

(** The store refuses every write, the disk works, and every clock
    reading falls in second 1000. *)
Definition down : env :=
  Env (fun _ => 1000.25) (fun _ => InsertFailed []) (fun _ => true).

Definition a_speed_doc : doc := SpeedDoc "t1" "ankle" 1.02 0.4 "SPD,1.02,0.40".
Definition a_prediction_doc : doc := PredictionDoc "t2" "Walking" None.

(** A serialisation that keeps the document's type only, and its parser. *)
Definition dumps_tag (d : doc) : string :=
  match d with
  | RawDoc _ _ _ _ => "raw"
  | SpeedDoc _ _ _ _ _ => "speed"
  | LabelDoc _ _ _ _ _ _ => "label"
  | PredictionDoc _ _ _ => "prediction"
  end.

Definition loads_tag (line : string) : option doc :=
  if String.eqb line "speed" then Some a_speed_doc
  else if String.eqb line "prediction" then Some a_prediction_doc
  else None.

Definition iso_fixed (t : float) : string := "2025-01-01T00:00:00".
Definition no_floats (s : string) : list float := [].

(** Both sinks as [pi_central.py] builds them: one backlog directory. *)
Definition sensor_mongo : MongoSink := Sink "SensorData" "data/backlog".
Definition pred_mongo : MongoSink := Sink "Predictions" "data/backlog".

(** The default settings, with both sinks on. *)
Definition default_config : config :=
  Config 100 2 5 0 (Some sensor_mongo) (Some pred_mongo) false.

Definition empty_world : world doc := World ∅ ∅ 0 0 0.

(** The world after the sensor sink's failed flush in second 1000. *)
Definition after_sensor_failure : world doc :=
  World {[ "SensorData" := [] ]}
        {[ ("data/backlog", 1000%Z) := ["speed"] ]} 1 1 1.

(** One document waits in the sensor batch. *)
Definition pending : state :=
  with_sensor_batch [a_speed_doc] (initial_state 0 empty_world).

(** C3, as stated, fails: a failed flush creates no backlog file when
    the file named after the current second is already there.  The
    sensor sink's failed flush leaves [backlog_1000.ndjson]; the
    prediction sink's failed flush in the same second creates no file,
    its document joins the sensor sink's in the one file. *)
Lemma failed_flush_into_existing_file :
  insert_batch dumps_tag down sensor_mongo [a_speed_doc] empty_world
    = (Ok tt, after_sensor_failure) /\
  exists w',
    insert_batch dumps_tag down pred_mongo [a_prediction_doc] after_sensor_failure
      = (Ok tt, w') /\
    files w' = {[ ("data/backlog", 1000%Z) := ["speed"; "prediction"] ]} /\
    size (files w') = size (files after_sensor_failure) /\
    size (files w') <> S (size (files after_sensor_failure)).
Proof.
  split; [vm_compute; reflexivity|].
  eexists. split; [vm_compute; reflexivity|].
  split; [vm_compute; reflexivity|].
  split; [vm_compute; reflexivity|].
  vm_compute. discriminate.
Qed.

(** C3, amended, on the first failed flush of the sensor sink. *)
Lemma failed_flush_backlogged_witness :
  exists w',
    flush_sink dumps_tag loads_tag down (Some sensor_mongo) [a_speed_doc] empty_world
      = (Ok [], w') /\
    (files w' !! ("data/backlog", 1000%Z) = Some ["speed"] \/
     (files w' !! ("data/backlog", 1000%Z) = None /\
      delivered loads_tag sensor_mongo ["speed"] w')).
Proof.
  assert (Hne : [a_speed_doc] <> []) by discriminate.
  assert (Hrem : remote down (remote_calls empty_world) = InsertFailed [])
    by reflexivity.
  assert (Hstamp : py_int (clock down (clock_reads empty_world)) = Some 1000%Z)
    by (vm_compute; reflexivity).
  assert (Hdisk : disk_open down (disk_opens empty_world) = true) by reflexivity.
  exact (proj1 (proj2 (failed_flush_backlogged dumps_tag loads_tag down
                         sensor_mongo [a_speed_doc] empty_world [] 1000%Z
                         Hne Hrem Hstamp Hdisk))).
Defined.

(** C5, as stated, fails: the store refuses the sensor batch, the batch
    is written to [backlog_1000.ndjson], and [maybe_upload] clears the
    in-memory batch instead of leaving it for the next interval. *)
Lemma failed_flush_clears_batch :
  exists st',
    maybe_upload dumps_tag loads_tag down default_config pending = (Ok tt, st') /\
    sensor_batch pending = [a_speed_doc] /\
    sensor_batch st' = [] /\
    sensor_batch st' <> sensor_batch pending /\
    files (outside st') !! ("data/backlog", 1000%Z) = Some ["speed"].
Proof.
  eexists. split; [vm_compute; reflexivity|].
  split; [reflexivity|]. split; [reflexivity|].
  split; [discriminate | vm_compute; reflexivity].
Qed.

(** C7 on two samples from the initial state, with the default window
    of 200 samples. *)
Lemma add_sample_retention_cap_witness :
  window_size_of 100 2 = Some 200%Z /\
  exists st',
    for_each [RawSample (Some "wrist") (VSeq 0.01 0.02 0.98) (VSeq 0.1 0.2 0.3);
              RawSample None (VSeq 0.02 0.01 0.97) (VSeq 0.1 0.1 0.2)]
      (add_sample down iso_fixed default_config 200)
      (initial_state 0 empty_world) = (Ok tt, st') /\
    buffers_bounded 200 st'.
Proof.
  split; [vm_compute; reflexivity|].
  assert (Hw : (1 <= 200)%Z) by lia.
  exact (proj2 (add_sample_retention_cap down iso_fixed default_config 200 Hw)
           _ 0 empty_world).
Defined.

(** C8 on a 3-byte raw packet from the wrist. *)
Lemma malformed_raw_dropped_witness :
  consumer_step dumps_tag loads_tag down iso_fixed no_floats
    np_mean_ref np_std_ddof1_ref np_min_ref np_max_ref fallback_engine
    default_config 200
    (Some (Packet "wrist" "raw" [Byte.x01; Byte.x02; Byte.x03])) pending
  = (Ok tt, pending).
Proof.
  assert (Hlen : length [Byte.x01; Byte.x02; Byte.x03] <> 12%nat)
    by (simpl; lia).
  exact (proj1 (proj2 (malformed_raw_dropped dumps_tag loads_tag down iso_fixed
                         no_floats np_mean_ref np_std_ddof1_ref np_min_ref
                         np_max_ref fallback_engine default_config 200
                         "wrist" [Byte.x01; Byte.x02; Byte.x03] pending Hlen))).
Defined.

(** *** More concrete runs *)

(** The store works. *)
Definition up : env :=
  Env (fun _ => 1000.25) (fun _ => Inserted) (fun _ => true).

(** The store refuses the first write after one document landed, then
    works. *)
Definition recovering : env :=
  Env (fun _ => 1000.25)
      (fun n => match n with O => InsertFailed [true] | _ => Inserted end)
      (fun _ => true).

Definition with_backlog : world doc :=
  World ∅ {[ ("data/backlog", 999%Z) := ["speed"; "prediction"] ]} 0 0 0.

Definition with_garbage : world doc :=
  World ∅ {[ ("data/backlog", 998%Z) := ["speed"; "{broken"] ]} 0 0 0.

Lemma one_doc_round_trip (d0 : doc) :
  loads_tag (dumps_tag d0) = Some d0 ->
  forall d, d ∈ [d0] -> loads_tag (dumps_tag d) = Some d.
Proof. intros H0 d Hd. apply list_elem_of_singleton in Hd as ->. exact H0. Qed.

Lemma empty_world_parses (ld : string -> option doc) (dir : string) :
  all_parse ld dir empty_world.
Proof. intros p lines Hl. cbn in Hl. now rewrite lookup_empty in Hl. Qed.

Lemma recovering_up_from_1 : store_up_from recovering 1.
Proof. intros [|n] Hn; [lia | reflexivity]. Qed.

(** X6 at a walking row. *)
Lemma synthetic_label_matches_fallback_witness :
  exists proba,
    classify_features fallback_engine (row_with 0.30 0.20)
      = Some (synthetic_label (py_max 0.30 0.20), proba).
Proof.
  apply (synthetic_label_matches_fallback (row_with 0.30 0.20) 0.30 0.20);
    reflexivity.
Defined.

(** X9 on the first refused batch: it returns, and the one document is
    the one line of [backlog_1000.ndjson]. *)
Lemma insert_batch_settles_witness :
  [a_speed_doc] <> [] /\
  exists w',
    insert_batch dumps_tag down sensor_mongo [a_speed_doc] empty_world
      = (Ok tt, w') /\
    files w' = {[ ("data/backlog", 1000%Z) := ["speed"] ]} /\
    coll w' "SensorData" = [].
Proof.
  assert (Hne : [a_speed_doc] <> []) by discriminate.
  split; [exact Hne|].
  destruct (insert_batch_settles dumps_tag down sensor_mongo [a_speed_doc]
              empty_world Hne) as (r & w' & Hrun & Hres).
  assert (Hok : insert_batch dumps_tag down sensor_mongo [a_speed_doc] empty_world
                = (Ok tt, after_sensor_failure)) by (vm_compute; reflexivity).
  rewrite Hok in Hrun. injection Hrun as <- <-.
  exists after_sensor_failure. split; [exact Hok|].
  destruct Hres as [(Hrem & _)|(landed & stamp & Hrem & Hstamp & Hf & Hc)];
    [discriminate Hrem|].
  assert (Hs : stamp = 1000%Z)
    by (vm_compute in Hstamp; now injection Hstamp as <-).
  subst stamp. split; [exact Hf|].
  injection Hrem as <-. exact Hc.
Defined.

(** X11 on a directory holding one backlog file of two documents. *)
Lemma flush_backlog_recovers_witness :
  exists w',
    flush_backlog loads_tag up sensor_mongo with_backlog = (Ok tt, w') /\
    glob w' "data/backlog" = [] /\
    delivered loads_tag sensor_mongo ["speed"; "prediction"] w'.
Proof.
  assert (Hup : store_up_from up (remote_calls with_backlog))
    by (intros n _; reflexivity).
  assert (Hparse : all_parse loads_tag (backlog_dir sensor_mongo) with_backlog).
  { intros p lines Hl _. cbn in Hl.
    apply lookup_singleton_Some in Hl as [_ <-]. eexists. reflexivity. }
  destruct (flush_backlog_recovers loads_tag up sensor_mongo with_backlog
              Hup Hparse) as (w' & Hrun & Hglob & _ & Hdel).
  exists w'. split; [exact Hrun|]. split; [exact Hglob|].
  apply (Hdel ("data/backlog", 999%Z)); [apply lookup_singleton_eq | reflexivity].
Defined.

(** X12 on a file whose second line is broken. *)
Lemma unparseable_backlog_file_stays_witness :
  replay_file loads_tag up sensor_mongo ("data/backlog", 998%Z) with_garbage
    = (Ok tt, with_garbage) /\
  exists w',
    flush_backlog loads_tag up sensor_mongo with_garbage = (Ok tt, w') /\
    files w' !! ("data/backlog", 998%Z) = Some ["speed"; "{broken"].
Proof.
  apply (unparseable_backlog_file_stays loads_tag up sensor_mongo
           ("data/backlog", 998%Z) ["speed"; "{broken"] with_garbage).
  - apply lookup_singleton_eq.
  - reflexivity.
Defined.

(** X13: the speed document landed, the write failed, the replay stores
    it again. *)
Lemma partial_failure_then_replay_duplicates_witness :
  exists w1 w2,
    insert_batch dumps_tag recovering sensor_mongo [a_speed_doc] empty_world
      = (Ok tt, w1) /\
    replay_file loads_tag recovering sensor_mongo ("data/backlog", 1000%Z) w1
      = (Ok tt, w2) /\
    coll w2 "SensorData" = [a_speed_doc; a_speed_doc].
Proof.
  assert (Hne : [a_speed_doc] <> []) by discriminate.
  assert (Hstamp : py_int (clock recovering (clock_reads empty_world)) = Some 1000%Z)
    by (vm_compute; reflexivity).
  destruct (partial_failure_then_replay_duplicates dumps_tag loads_tag recovering
              sensor_mongo [a_speed_doc] empty_world [true] 1000%Z
              Hne eq_refl eq_refl Hstamp eq_refl (lookup_empty _)
              (one_doc_round_trip a_speed_doc eq_refl))
    as (w1 & w2 & Hins & _ & Hrep & _ & Hcoll).
  exists w1, w2. split; [exact Hins|]. split; [exact Hrep|]. exact Hcoll.
Defined.

(** X14: the prediction sink's refused batch ends up in [SensorData]. *)
Lemma shared_directory_cross_replay_witness :
  exists w1 w2,
    insert_batch dumps_tag recovering pred_mongo [a_prediction_doc] empty_world
      = (Ok tt, w1) /\
    flush_backlog loads_tag recovering sensor_mongo w1 = (Ok tt, w2) /\
    (exists pre post, coll w2 "SensorData" = pre ++ [a_prediction_doc] ++ post) /\
    coll w2 "Predictions" = coll empty_world "Predictions" ++ [a_prediction_doc].
Proof.
  assert (Hne : [a_prediction_doc] <> []) by discriminate.
  assert (Hcol : col sensor_mongo <> col pred_mongo) by discriminate.
  assert (Hstamp : py_int (clock recovering (clock_reads empty_world)) = Some 1000%Z)
    by (vm_compute; reflexivity).
  destruct (shared_directory_cross_replay dumps_tag loads_tag recovering
              pred_mongo sensor_mongo [a_prediction_doc] empty_world [true] 1000%Z
              Hne eq_refl Hcol eq_refl recovering_up_from_1 Hstamp eq_refl
              (lookup_empty _) (empty_world_parses loads_tag _)
              (one_doc_round_trip a_prediction_doc eq_refl))
    as (w1 & w2 & Hins & Hfl & _ & Hs2 & Hs1).
  exists w1, w2. split; [exact Hins|]. split; [exact Hfl|].
  split; [exact Hs2 | exact Hs1].
Defined.

(** X19 on a label packet. *)
Lemma only_raw_packets_reach_buffers_witness :
  buffer (consumer_step dumps_tag loads_tag down iso_fixed no_floats
            np_mean_ref np_std_ddof1_ref np_min_ref np_max_ref fallback_engine
            default_config 200
            (Some (Packet "wrist" "label" [Byte.x57; Byte.x41; Byte.x4c; Byte.x4b]))
            pending).2
  = buffer pending.
Proof.
  assert (Hnot : forall p,
            Some (Packet "wrist" "label" [Byte.x57; Byte.x41; Byte.x4c; Byte.x4b])
            = Some p -> stream p <> "raw")
    by (intros p [= <-]; simpl; discriminate).
  exact (proj1 (only_raw_packets_reach_buffers dumps_tag loads_tag down iso_fixed
                  no_floats np_mean_ref np_std_ddof1_ref np_min_ref np_max_ref
                  fallback_engine default_config 200 _ pending Hnot)).
Defined.

(** X21 on the ankle node's first packet. *)
Lemma raw_packet_reaches_buffer_witness :
  length Wire.payload_a = 12%nat /\
  buffer pending !! "ankle" = Some [] /\
  exists ax ay az gx gy gz,
    Wire.unpack_6h Wire.payload_a = Some [ax; ay; az; gx; gy; gz] /\
    buffer (consumer_step dumps_tag loads_tag down iso_fixed no_floats
              np_mean_ref np_std_ddof1_ref np_min_ref np_max_ref
              fallback_engine default_config 200
              (Some (Packet "ankle" "raw" Wire.payload_a)) pending).2
    = <["ankle" := retained 200 []
                (normalized
                   (RawSample (Some "ankle")
                      (VSeq (Wire.decode_axis ax) (Wire.decode_axis ay)
                            (Wire.decode_axis az))
                      (VSeq (Wire.decode_axis gx) (Wire.decode_axis gy)
                            (Wire.decode_axis gz))))]>
        (buffer pending).
Proof.
  split; [reflexivity|]. split; [reflexivity|].
  exact (raw_packet_reaches_buffer dumps_tag loads_tag down iso_fixed no_floats
           np_mean_ref np_std_ddof1_ref np_min_ref np_max_ref fallback_engine
           default_config 200 "ankle" Wire.payload_a pending []
           eq_refl eq_refl).
Defined.

(** X20 right after start-up: nothing cached, nothing queued. *)
Lemma maybe_predict_without_window_witness :
  exists st',
    maybe_predict dumps_tag loads_tag down iso_fixed
      np_mean_ref np_std_ddof1_ref np_min_ref np_max_ref fallback_engine
      default_config 200 pending = (Ok tt, st') /\
    pred_batch st' = pred_batch pending.
Proof.
  assert (Hlen : (Z.of_nat (length (@nil sample)) < 200)%Z) by (simpl; lia).
  destruct (maybe_predict_without_window dumps_tag loads_tag down iso_fixed
              np_mean_ref np_std_ddof1_ref np_min_ref np_max_ref fallback_engine
              default_config 200 pending [] [] 0 0
              eq_refl eq_refl eq_refl Hlen Hlen eq_refl eq_refl)
    as (st' & Hrun & Hres).
  exists st'. split; [exact Hrun | exact Hres].
Defined.

End PiCentral.

(* ------------------------------------------------------------------ *)
(** ** ble_receiver.py: the link to one node *)

Module BleLink.

Import Effects.
Local Open Scope float_scope.

(** The three characteristics. *)
Inductive uuid := UUID_CHAR_CTRL | UUID_CHAR_RAW | UUID_CHAR_LABEL.

(** The calls made on the radio, each for the node it concerns. *)
Inductive ble_call :=
| Discover (name_hint : string)
| Connect (nd : string)
| IsConnected (nd : string)
| StartNotify (nd : string) (u : uuid)
| StopNotify (nd : string) (u : uuid)
| WriteGattChar (nd : string) (u : uuid) (data : list byte)
| Disconnect (nd : string)
| Sleep (seconds : float).


Definition POST_CONNECT_GRACE_S : float := 0.6.

(** [struct.pack("<BH", cmd, hz)]: one unsigned byte, one unsigned
    little-endian 16-bit field; [struct.error] ([None]) out of range. *)
Definition pack_BH (cmd hz : Z) : option (list byte) :=
  if ((0 <=? cmd) && (cmd <=? 255) && (0 <=? hz) && (hz <=? 65535))%Z
  then Some [Wire.byte_of_Z cmd; Wire.byte_of_Z hz; Wire.byte_of_Z (hz / 256)]
  else None.


Inductive answer := Raises | Yes | No.

Section Link.

(** The radio's answer to the [n]-th call: it raises, or returns (for
    [discover] and [is_connected]: with yes or no). *)
Variable radio : nat -> answer.
Variable enable_raw : bool.
Variable sample_hz : Z.

(** The receiver: the calls made so far, oldest first, and the keys of
    [self.clients], in insertion order. *)
Record receiver := Receiver {
  calls : list ble_call;
  clients : list string
}.

(** A call that may raise.  Every handler of this file catches
    [Exception], so [OSError] stands for whatever the radio stack raises
    ([BleakError], [TimeoutError], ...). *)
Definition call (c : ble_call) : M receiver unit := fun r =>
  let r' := Receiver (calls r ++ [c]) (clients r) in
  match radio (length (calls r)) with
  | Raises => (Raise OSError, r')
  | _ => (Ok tt, r')
  end.

(** A call that answers yes or no, unless it raises. *)
Definition ask (c : ble_call) : M receiver bool := fun r =>
  let r' := Receiver (calls r ++ [c]) (clients r) in
  match radio (length (calls r)) with
  | Raises => (Raise OSError, r')
  | Yes => (Ok true, r')
  | No => (Ok false, r')
  end.

(** [await asyncio.sleep(s)] *)
Definition sleep (s : float) : M receiver unit :=
  modify (fun r => Receiver (calls r ++ [Sleep s]) (clients r)).

(** How the retry loop of [_connect_node] is left. *)
Inductive loop_exit := Connected | GaveUp.

(** One attempt: the body of the [try]. *)
Definition attempt_connect (nd : string) : M receiver unit :=
  call (Connect nd);;
  sleep POST_CONNECT_GRACE_S;;
  c ← ask (IsConnected nd);
  if negb c then raise OSError else mret tt.

(** [for attempt in range(3): ...] over the remaining attempt numbers. *)
Fixpoint connect_loop (nd : string) (attempts : list Z) : M receiver loop_exit :=
  match attempts with
  | [] => mret Connected
  | attempt :: rest =>
      ok ← try_except (attempt_connect nd;; mret true) (fun _ => mret false);
      if negb ok then
        if (attempt =? 2)%Z then (mret GaveUp : M receiver loop_exit)
        else sleep 1;; connect_loop nd rest
      else mret Connected
  end.






(** The body of the loop of [disconnect_all] for one client. *)
Definition disconnect_one (nd : string) : M receiver unit :=
  try_except
    (try_except
       (cmd ← of_option StructError (pack_BH 0 0);
        call (WriteGattChar nd UUID_CHAR_CTRL cmd))
       (fun _ => mret tt);;
     try_except (call (StopNotify nd UUID_CHAR_RAW)) (fun _ => mret tt);;
     try_except (call (StopNotify nd UUID_CHAR_LABEL)) (fun _ => mret tt);;
     call (Disconnect nd))
    (fun _ => mret tt).

Definition disconnect_all : M receiver unit :=
  r ← get;
  for_each (clients r) disconnect_one.

(** *** What the link manager does on the radio *)

Definition is_connect (c : ble_call) : bool :=
  match c with Connect _ => true | _ => false end.

(** The back-off between two attempts, [asyncio.sleep(1.0)]. *)
Definition is_backoff (c : ble_call) : bool :=
  match c with Sleep s => s =? 1 | _ => false end.

(** Calls that neither subscribe nor write: discovery, connecting,
    checking, waiting. *)
Definition quiet (c : ble_call) : bool :=
  match c with
  | Discover _ | Connect _ | IsConnected _ | Sleep _ => true
  | _ => false
  end.

Definition count (f : ble_call -> bool) (l : list ble_call) : nat :=
  length (List.filter f l).

(** The calls of one disconnect, in the order of the source. *)
Definition goodbye (nd : string) : list ble_call :=
  [WriteGattChar nd UUID_CHAR_CTRL [Byte.x00; Byte.x00; Byte.x00];
   StopNotify nd UUID_CHAR_RAW;
   StopNotify nd UUID_CHAR_LABEL;
   Disconnect nd].



Lemma call_run (c : ble_call) (r : receiver) :
  exists res, call c r = (res, Receiver (calls r ++ [c]) (clients r)).
Proof. unfold call. destruct (radio (length (calls r))); eauto. Qed.

Lemma try_call (c : ble_call) (r : receiver) :
  try_except (call c) (fun _ => mret tt) r
  = (Ok tt, Receiver (calls r ++ [c]) (clients r)).
Proof.
  unfold try_except, call. destruct (radio (length (calls r))); reflexivity.
Qed.

(** Decides the radio's answers a computation depends on. *)
Ltac radio_cases :=
  repeat match goal with
         | |- context [match radio ?n with _ => _ end] => destruct (radio n)
         end.

(** One guarded attempt. *)
Lemma attempt_cases (nd : string) (r : receiver) :
  exists ok added,
    try_except (attempt_connect nd;; mret true) (fun _ => mret false) r
    = (Ok ok, Receiver (calls r ++ added) (clients r)) /\
    ((added = [Connect nd] /\ ok = false) \/
     added = [Connect nd; Sleep POST_CONNECT_GRACE_S; IsConnected nd]).
Proof.
  unfold try_except, attempt_connect, mbind, M_bind, call, sleep, ask, modify.
  cbn [calls clients].
  radio_cases; cbn; rewrite <- ?app_assoc; eexists _, _;
    (split; [reflexivity|]); auto.
Qed.

(** One turn of the retry loop, given how its attempt went. *)
Lemma connect_loop_step (nd : string) (attempt : Z) (rest : list Z)
    (r : receiver) (ok : bool) (added : list ble_call) :
  try_except (attempt_connect nd;; mret true) (fun _ => mret false) r
    = (Ok ok, Receiver (calls r ++ added) (clients r)) ->
  connect_loop nd (attempt :: rest) r =
  if ok then (Ok Connected, Receiver (calls r ++ added) (clients r))
  else if (attempt =? 2)%Z
       then (Ok GaveUp, Receiver (calls r ++ added) (clients r))
       else connect_loop nd rest
              (Receiver (calls r ++ added ++ [Sleep 1]) (clients r)).
Proof.
  intros Hrun. cbn [connect_loop]. unfold mbind at 1, M_bind at 1.
  rewrite Hrun. destruct ok; cbn [negb]; [reflexivity|].
  destruct (attempt =? 2)%Z; [reflexivity|].
  unfold mbind, M_bind, sleep, modify. cbn [calls clients].
  now rewrite <- app_assoc.
Qed.

(** The retry loop of [_connect_node]. *)
Lemma connect_loop_cases (nd : string) (r : receiver) :
  exists exit added,
    connect_loop nd [0; 1; 2]%Z r
    = (Ok exit, Receiver (calls r ++ added) (clients r)) /\
    forallb quiet added = true /\
    (1 <= count is_connect added <= 3)%nat /\
    (exit = GaveUp ->
       count is_connect added = 3%nat /\ count is_backoff added = 2%nat) /\
    (exit = Connected -> last added = Some (IsConnected nd)).
Proof.
  destruct (attempt_cases nd r) as (ok1 & a1 & Hr1 & H1).
  rewrite (connect_loop_step nd 0 [1; 2]%Z r ok1 a1 Hr1).
  destruct ok1.
  { destruct H1 as [[_ ?]| ->]; [discriminate|].
    eexists _, _. split; [reflexivity|]. repeat split; try discriminate; cbn; lia. }
  cbn [Z.eqb].
  set (r1 := Receiver (calls r ++ a1 ++ [Sleep 1]) (clients r)).
  destruct (attempt_cases nd r1) as (ok2 & a2 & Hr2 & H2).
  rewrite (connect_loop_step nd 1 [2]%Z r1 ok2 a2 Hr2).
  unfold r1. cbn [calls clients]. rewrite <- !app_assoc.
  destruct ok2.
  { destruct H2 as [[_ ?]| ->]; [discriminate|].
    eexists _, _. split; [reflexivity|].
    destruct H1 as [[-> _]| ->]; repeat split; try discriminate; cbn; lia. }
  cbn [Z.eqb Pos.eqb].
  set (r2 := Receiver (calls r ++ a1 ++ [Sleep 1] ++ a2 ++ [Sleep 1]) (clients r)).
  destruct (attempt_cases nd r2) as (ok3 & a3 & Hr3 & H3).
  rewrite (connect_loop_step nd 2 [] r2 ok3 a3 Hr3).
  unfold r2. cbn [calls clients]. rewrite <- !app_assoc.
  destruct ok3; cbn [Z.eqb Pos.eqb].
  - destruct H3 as [[_ ?]| ->]; [discriminate|].
    eexists _, _. split; [reflexivity|].
    destruct H1 as [[-> _]| ->], H2 as [[-> _]| ->];
      repeat split; try discriminate; cbn; lia.
  - eexists _, _. split; [reflexivity|].
    destruct H1 as [[-> _]| ->], H2 as [[-> _]| ->], H3 as [[-> _]| ->];
      repeat split; try discriminate; cbn; lia.
Qed.

(** X22. The retry loop never raises and only connects, checks and
    waits: it makes at least one and at most three connect attempts,
    stops at the first one that leaves the link connected, and gives up
    only after exactly three attempts with two one-second back-offs
    between them. *)
Theorem connect_retries_are_bounded (nd : string) (r : receiver) :
  exists exit r',
    connect_loop nd [0; 1; 2]%Z r = (Ok exit, r') /\
    clients r' = clients r /\
    exists added,
      calls r' = calls r ++ added /\
      forallb quiet added = true /\
      (1 <= count is_connect added <= 3)%nat /\
      (exit = GaveUp ->
         count is_connect added = 3%nat /\ count is_backoff added = 2%nat) /\
      (exit = Connected -> last added = Some (IsConnected nd)).
Proof.
  destruct (connect_loop_cases nd r) as (exit & added & Hrun & Hrest).
  exists exit, (Receiver (calls r ++ added) (clients r)).
  split; [exact Hrun|]. split; [reflexivity|]. exists added.
  split; [reflexivity | exact Hrest].
Qed.





Lemma disconnect_one_run (nd : string) (r : receiver) :
  disconnect_one nd r = (Ok tt, Receiver (calls r ++ goodbye nd) (clients r)).
Proof.
  unfold disconnect_one, goodbye.
  unfold try_except, mbind, M_bind, call, of_option, mret, M_ret.
  cbn [pack_BH calls clients]. cbn.
  radio_cases; cbn; rewrite <- ?app_assoc; reflexivity.
Qed.

Lemma disconnect_loop_run (l : list string) (r : receiver) :
  for_each l disconnect_one r
  = (Ok tt, Receiver (calls r ++ concat (map goodbye l)) (clients r)).
Proof.
  revert r. induction l as [|nd l IH]; intros r.
  - cbn. rewrite app_nil_r. now destruct r.
  - cbn [for_each]. unfold mbind, M_bind. rewrite disconnect_one_run, IH.
    cbn [calls clients map concat]. now rewrite <- app_assoc.
Qed.

(** X24. [disconnect_all] never raises and skips nothing: for every
    client, in the order they were connected, it tries the STOP command,
    the two unsubscriptions and the disconnect, each of them whatever
    the earlier ones did, and it keeps [clients] as it was. *)
Theorem disconnect_all_tries_every_step (r : receiver) :
  disconnect_all r
  = (Ok tt, Receiver (calls r ++ concat (map goodbye (clients r))) (clients r)).
Proof.
  unfold disconnect_all. unfold mbind at 1, M_bind at 1, get at 1.
  apply disconnect_loop_run.
Qed.

End Link.

End BleLink.
